(** * newsapi: the News API client (src/index.js)

    A shallow embedding of the client module and the properties of its
    argument normaliser, URL builder, request dispatcher and facade.

    The module is JavaScript.  The parts of the JavaScript runtime and of
    Node's standard library that the module relies on ([typeof], truthiness,
    string conversion in a template literal, [Object.keys],
    [querystring.stringify]) are modelled in [Module Js] and
    [Module Querystring]; [JSON.parse] is a parameter of the development. *)

From Stdlib Require Import List String Ascii Bool Arith NArith.
From Stdlib Require Import DecimalString Permutation Sorted.
Import ListNotations.
Open Scope string_scope.
Set Warnings "-register-all".

(** ** The JavaScript values the module handles *)

Module Js.

(** Parsed JSON, as [JSON.parse] returns it.  A number is represented by its
    canonical rendering (what [String(n)] gives): the module never computes
    with numbers, it only converts them to text.  An object is the list of
    its own properties. *)
Inductive json : Type :=
| JNull
| JBool (b : bool)
| JNum (repr : string)
| JStr (s : string)
| JArr (items : list json)
| JObj (props : list (string * json)).

(** An error object that this module did not create: the transport's error,
    the [SyntaxError] of [JSON.parse], a [TypeError] raised by the runtime,
    the [Error] of the constructor. *)
Record native : Type := mkNative { ctor : string; text : string }.

(** Whatever can be thrown or delivered as an error.  [NewsAPIError] is the
    module's private class (it is not exported), so only the module builds
    one; [message] is [None] when the property holds [undefined]. *)
Inductive thrown : Type :=
| Native (e : native)
| NewsAPIError (name : string) (message : option json).

(** One positional argument of a completion callback. *)
Inductive arg : Type :=
| ANull
| AErr (e : thrown)
| AData (d : json).

(** A function value, seen as a completion callback: on its [n]-th
    invocation (counted from 0) with the given positional arguments it
    either returns ([None]) or throws ([Some e]). *)
Definition callback : Type := nat -> list arg -> option thrown.

(** The values a caller can pass to the facade.  Strings are the UTF-8
    bytes of the text.  [VObj] is any object that is neither an array nor
    callable, given by its own enumerable string-keyed properties in the
    order they were created. *)
Inductive value : Type :=
| VUndefined
| VNull
| VBool (b : bool)
| VNum (repr : string)
| VStr (s : string)
| VFun (f : callback)
| VArr (items : list value)
| VObj (props : list (string * value)).

(** The [typeof] operator. *)
Definition typeof (v : value) : string :=
  match v with
  | VUndefined => "undefined"
  | VNull => "object"
  | VBool _ => "boolean"
  | VNum _ => "number"
  | VStr _ => "string"
  | VFun _ => "function"
  | VArr _ => "object"
  | VObj _ => "object"
  end.

(** Truthiness ([ToBoolean]).  The renderings of the falsy numbers are
    [0] (for both zeros) and [NaN]. *)
Definition truthy (v : value) : bool :=
  match v with
  | VUndefined | VNull => false
  | VBool b => b
  | VNum r => negb ((r =? "0") || (r =? "NaN"))
  | VStr s => negb (s =? "")
  | VFun _ | VArr _ | VObj _ => true
  end.

(** [Array.isArray] *)
Definition is_array (v : value) : bool :=
  match v with VArr _ => true | _ => false end.

(** [args[i]]: reading past the end of an array gives [undefined]. *)
Definition index (args : list value) (i : nat) : value :=
  nth i args VUndefined.

(** The result of evaluating an expression or a statement: it returns a
    value or throws. *)
Inductive completion (A : Type) : Type :=
| Returned (a : A)
| Threw (e : thrown).
Arguments Returned {A} a.
Arguments Threw {A} e.

(** An own property of an object, by name. *)
Fixpoint own {A : Type} (k : string) (props : list (string * A)) : option A :=
  match props with
  | [] => None
  | (k', v) :: rest => if k' =? k then Some v else own k rest
  end.

(** The property read [j.k] on parsed JSON, for the names the module reads
    ([status], [code], [message]), which no prototype defines: reading a
    property of [null] throws a [TypeError], a primitive or an array has no
    such property, an object gives its own property; [None] is
    [undefined]. *)
Definition get (j : json) (k : string) : completion (option json) :=
  match j with
  | JNull =>
      Threw (Native (mkNative "TypeError"
                       ("Cannot read properties of null (reading '" ++ k ++ "')")))
  | JObj props => Returned (own k props)
  | _ => Returned None
  end.

(** [ToString] on parsed JSON, as a template literal applies it; [None]
    when the conversion throws a [TypeError].  An object converts through
    its [toString] property: the inherited method gives [[object Object]];
    an own property called [toString], which in parsed JSON is never
    callable, hides it, and then nothing yields a primitive.  An array
    converts through [join]: its elements separated by commas, [null]
    elements giving the empty string. *)
Fixpoint to_string (j : json) : option string :=
  match j with
  | JNull => Some "null"
  | JBool b => Some (if b then "true" else "false")
  | JNum r => Some r
  | JStr s => Some s
  | JArr items =>
      (fix join (l : list json) : option string :=
         match l with
         | [] => Some ""
         | x :: rest =>
             match match x with JNull => Some "" | _ => to_string x end with
             | None => None
             | Some s =>
                 match rest with
                 | [] => Some s
                 | _ :: _ =>
                     match join rest with
                     | None => None
                     | Some r => Some (s ++ "," ++ r)
                     end
                 end
             end
         end) items
  | JObj props =>
      match own "toString" props with
      | Some _ => None
      | None => Some "[object Object]"
      end
  end.

(** [`${v}`] where [v] may be [undefined]. *)
Definition template (v : option json) : completion string :=
  match v with
  | None => Returned "undefined"
  | Some j =>
      match to_string j with
      | Some s => Returned s
      | None =>
          Threw (Native (mkNative "TypeError"
                           "Cannot convert object to primitive value"))
      end
  end.

(** *** The order of an object's own keys *)

Definition digit (c : ascii) : option N :=
  let n := N_of_ascii c in
  if ((48 <=? n) && (n <=? 57))%N then Some (n - 48)%N else None.

Fixpoint digits (s : string) (acc : N) : option N :=
  match s with
  | EmptyString => Some acc
  | String c rest =>
      match digit c with
      | Some d => digits rest (10 * acc + d)%N
      | None => None
      end
  end.

(** A key is an array index when it is the canonical decimal numeral of an
    integer below [2^32 - 1]. *)
Definition array_index (k : string) : option N :=
  match k with
  | EmptyString => None
  | String c rest =>
      if ((c =? "0")%char && negb (rest =? ""))%bool then None
      else
        match digits k 0 with
        | Some n => if (n <? 4294967295)%N then Some n else None
        | None => None
        end
  end.

Definition is_array_index (k : string) : bool :=
  match array_index k with Some _ => true | None => false end.

Fixpoint insert_index {A : Type} (n : N) (e : A) (l : list (N * A))
  : list (N * A) :=
  match l with
  | [] => [(n, e)]
  | (m, x) :: rest =>
      if (n <? m)%N then (n, e) :: l else (m, x) :: insert_index n e rest
  end.

Fixpoint index_entries {A : Type} (props : list (string * A))
  : list (N * (string * A)) :=
  match props with
  | [] => []
  | (k, v) :: rest =>
      match array_index k with
      | Some n => insert_index n (k, v) (index_entries rest)
      | None => index_entries rest
      end
  end.

(** The order in which [Object.keys] lists the own properties of an
    ordinary object: the array indices in ascending numeric order, then the
    other keys in the order they were created. *)
Definition own_entries {A : Type} (props : list (string * A))
  : list (string * A) :=
  map snd (index_entries props)
  ++ filter (fun kv => negb (is_array_index (fst kv))) props.

Definition decimal (n : nat) : string :=
  NilZero.string_of_uint (Nat.to_uint n).

(** The own enumerable properties of an array: its elements under the keys
    [0], [1], ... *)
Fixpoint array_entries (i : nat) (items : list value)
  : list (string * value) :=
  match items with
  | [] => []
  | x :: rest => (decimal i, x) :: array_entries (S i) rest
  end.

End Js.
Import Js.

(** ** Argument normaliser *)

(** The object literal [{ options, cb }]. *)
Record OptionsAndCallback : Type := mkOptionsAndCallback {
  options : value;
  cb : value
}.

(** [splitArgsIntoOptionsAndCallback]: both variables start out
    [undefined]; the branches are those of the source, in its order. *)
Definition splitArgsIntoOptionsAndCallback (args : list value)
  : OptionsAndCallback :=
  if (1 <? List.length args)%nat then
    mkOptionsAndCallback (index args 0) (index args 1)
  else if typeof (index args 0) =? "object" then
    mkOptionsAndCallback (index args 0) VUndefined
  else if typeof (index args 0) =? "function" then
    mkOptionsAndCallback VUndefined (index args 0)
  else
    mkOptionsAndCallback VUndefined VUndefined.

(** ** Node's [querystring] module

    The module is part of Node, not of the repository.  [stringify] is
    modelled after Node's implementation with the default separators and
    the default [escape]; a text that is not well-formed Unicode, on which
    [escape] throws, has no UTF-8 bytes and is not represented.  An empty
    array contributes no pair, as in the current versions of Node. *)

Module Querystring.

(** The characters [escape] leaves alone: letters, digits and
    [- _ . ! ~ * ' ( )]. *)
Definition unreserved (c : ascii) : bool :=
  let n := nat_of_ascii c in
  (((65 <=? n) && (n <=? 90)) || ((97 <=? n) && (n <=? 122))
   || ((48 <=? n) && (n <=? 57))
   || existsb (Ascii.eqb c)
        ["-"; "_"; "."; "!"; "~"; "*"; "'"; "("; ")"]%char)%nat.

Definition hex_digit (n : nat) : ascii :=
  nth n ["0"; "1"; "2"; "3"; "4"; "5"; "6"; "7"; "8"; "9";
         "A"; "B"; "C"; "D"; "E"; "F"]%char "0"%char.

Definition percent (c : ascii) : string :=
  let n := nat_of_ascii c in
  String "%" (String (hex_digit (n / 16)) (String (hex_digit (n mod 16)) "")).

(** [querystring.escape]: every byte of the UTF-8 text that is not
    unreserved becomes [%XX].  On a text with a lone surrogate Node's
    function throws a [URIError]; such a text has no UTF-8 bytes, so it is
    not a string of the model, and on every string of the model the
    function returns. *)
Fixpoint escape (s : string) : string :=
  match s with
  | EmptyString => ""
  | String c rest =>
      (if unreserved c then String c "" else percent c) ++ escape rest
  end.

(** [stringifyPrimitive]: a string is itself, a finite number its
    rendering, a boolean [true] or [false], anything else the empty
    string. *)
Definition stringifyPrimitive (v : value) : string :=
  match v with
  | VStr s => s
  | VNum r =>
      if (r =? "NaN") || (r =? "Infinity") || (r =? "-Infinity") then ""
      else r
  | VBool b => if b then "true" else "false"
  | _ => ""
  end.

(** What [Object.keys(obj)], and [obj[k]] for each key, give when [obj]
    passes the test [obj !== null && typeof obj === 'object']. *)
Definition entries (obj : value) : option (list (string * value)) :=
  match obj with
  | VObj props => Some (own_entries props)
  | VArr items => Some (array_entries 0 items)
  | _ => None
  end.

(** The [key=value] pairs one property contributes: one for a value that
    is not an array, one for each element of an array. *)
Definition pairs (kv : string * value) : list string :=
  let ks := escape (fst kv) ++ "=" in
  match snd kv with
  | VArr items => map (fun x => ks ++ escape (stringifyPrimitive x)) items
  | v => [ks ++ escape (stringifyPrimitive v)]
  end.

(** [querystring.stringify(obj)] with the default separators: the pairs of
    the own properties, in key order, joined by [&]; the empty string for
    anything that is not an object. *)
Definition stringify (obj : value) : string :=
  match entries obj with
  | Some es => String.concat "&" (flat_map pairs es)
  | None => ""
  end.

End Querystring.

(** ** URL builder *)

Definition host : string := "https://newsapi.org".

(** [createUrlFromEndpointAndOptions]; a string is truthy when it is not
    empty.  The builder throws what [qs.stringify] throws, a [URIError]
    for a key or a value with a lone surrogate; the values of the model
    hold well-formed texts only, and on them the builder returns. *)
Definition createUrlFromEndpointAndOptions (endpoint : string)
  (options : value) : string :=
  let query := Querystring.stringify options in
  let baseURL := host ++ endpoint in
  if negb (query =? "") then baseURL ++ "?" ++ query else baseURL.

(** ** Request dispatcher *)

(** The promise [getDataFromWeb] creates and returns. *)
Inductive promise_state : Type :=
| Pending
| Fulfilled (v : json)
| Rejected (e : thrown).

(** What one dispatch can change: the state of its promise and the record
    of the invocations of its completion callback, oldest first. *)
Record world : Type := mkWorld {
  promise : promise_state;
  invocations : list (list arg)
}.

Definition initial_world : world := mkWorld Pending [].

(** Statements run in a state and exception monad over [world]. *)
Definition M (A : Type) : Type := world -> completion A * world.

Definition ret {A : Type} (a : A) : M A := fun w => (Returned a, w).

Definition bind {A B : Type} (m : M A) (k : A -> M B) : M B :=
  fun w =>
    match m w with
    | (Returned a, w') => k a w'
    | (Threw e, w') => (Threw e, w')
    end.

Definition throw {A : Type} (e : thrown) : M A := fun w => (Threw e, w).

Definition lift {A : Type} (c : completion A) : M A := fun w => (c, w).

(** [try { body } catch (e) { handler }] *)
Definition try_catch {A : Type} (body : M A) (handler : thrown -> M A)
  : M A :=
  fun w =>
    match body w with
    | (Returned a, w') => (Returned a, w')
    | (Threw e, w') => handler e w'
    end.

Notation "x <- m ;; k" := (bind m (fun x => k))
  (at level 61, m at next level, right associativity).
Notation "m ;;; k" := (bind m (fun _ => k))
  (at level 61, right associativity).

(** The [resolve] and [reject] functions of the promise executor: they
    settle a pending promise and do nothing to a settled one.  The data is
    parsed JSON, which holds no function, so it is never a thenable. *)
Definition resolve (data : json) : M unit :=
  fun w =>
    (Returned tt,
     match promise w with
     | Pending => mkWorld (Fulfilled data) (invocations w)
     | _ => w
     end).

Definition reject (e : thrown) : M unit :=
  fun w =>
    (Returned tt,
     match promise w with
     | Pending => mkWorld (Rejected e) (invocations w)
     | _ => w
     end).

(** The call [cb(args)]: the invocation is recorded, then the function
    returns or throws; calling what is not a function throws. *)
Definition invoke (cb : value) (args : list arg) : M unit :=
  match cb with
  | VFun f =>
      fun w =>
        let w' := mkWorld (promise w) (invocations w ++ [args]) in
        match f (List.length (invocations w)) args with
        | None => (Returned tt, w')
        | Some e => (Threw e, w')
        end
  | _ => throw (Native (mkNative "TypeError" "cb is not a function"))
  end.

(** [new NewsAPIError(err)]: the name is computed first, then the
    message. *)
Definition new_NewsAPIError (err : json) : completion thrown :=
  match get err "code" with
  | Threw e => Threw e
  | Returned code =>
      match template code with
      | Threw e => Threw e
      | Returned s =>
          match get err "message" with
          | Threw e => Threw e
          | Returned message =>
              Returned (NewsAPIError ("NewsAPIError: " ++ s) message)
          end
      end
  end.

(** [data.status === 'error'] *)
Definition is_error (status : option json) : bool :=
  match status with
  | Some (JStr s) => s =? "error"
  | _ => false
  end.

(** The options object handed to [request.get]. *)
Record request_options : Type := mkRequest {
  url : string;
  headers : option (list (string * value))
}.

(** How the transport calls back, [(err, res, body)]: with a truthy [err],
    or with a falsy one and the body of the response.  [res] is not read.
    The transport is taken to accept the request and to call back once. *)
Inductive transport_outcome : Type :=
| Failed (err : native)
| Responded (body : string).

(** What a call of [getDataFromWeb] leaves behind: the delivery mode it
    computed on entry, the request it issued, and the function it gave the
    transport to call back.  The promise it returns starts [Pending]. *)
Record dispatch : Type := mkDispatch {
  useCallback : bool;
  request : request_options;
  on_response : transport_outcome -> M unit
}.

Section Dispatcher.

(** [JSON.parse], applied to the body of a response: the exception it
    throws or the value it returns. *)
Variable JSON_parse : string -> native + json.

Definition parse (body : string) : completion json :=
  match JSON_parse body with
  | inl e => Threw (Native e)
  | inr data => Returned data
  end.

Definition getDataFromWeb (url : string) (apiKey cb : value) : dispatch :=
  let useCallback := typeof cb =? "function" in
  let options :=
    mkRequest url
      (if truthy apiKey then Some [("X-Api-Key", apiKey)] else None) in
  mkDispatch useCallback options
    (fun out =>
       match out with
       | Failed err =>
           if useCallback then invoke cb [AErr (Native err)]
           else reject (Native err)
       | Responded body =>
           try_catch
             (data <- lift (parse body) ;;
              status <- lift (get data "status") ;;
              (if is_error status
               then e <- lift (new_NewsAPIError data) ;; throw e
               else ret tt) ;;;
              if useCallback then invoke cb [ANull; AData data]
              else resolve data)
             (fun e =>
                if useCallback then invoke cb [AErr e] else reject e)
       end).

(** ** The facade *)

(** The module-level variable [API_KEY]. *)
Record module_state : Type := mkModule { API_KEY : value }.

Definition initial_module : module_state := mkModule VUndefined.

(** An instance of [NewsAPI]: it owns its methods and nothing else. *)
Inductive NewsAPI : Type := instance.

(** [new NewsAPI(apiKey)] *)
Definition constructor (apiKey : value) (st : module_state)
  : completion NewsAPI * module_state :=
  if negb (truthy apiKey)
  then (Threw (Native (mkNative "Error" "No API key specified")), st)
  else (Returned instance, mkModule apiKey).

(** The default of the destructuring [{ options = {...}, cb }]: it applies
    when the property is [undefined]. *)
Definition default (d v : value) : value :=
  match v with VUndefined => d | _ => v end.

Definition v2_topHeadlines (this : NewsAPI) (st : module_state)
  (args : list value) : dispatch :=
  let oc := splitArgsIntoOptionsAndCallback args in
  let options := default (VObj [("language", VStr "en")]) (options oc) in
  let url := createUrlFromEndpointAndOptions "/v2/top-headlines" options in
  getDataFromWeb url (API_KEY st) (cb oc).

Definition v2_everything (this : NewsAPI) (st : module_state)
  (args : list value) : dispatch :=
  let oc := splitArgsIntoOptionsAndCallback args in
  let url := createUrlFromEndpointAndOptions "/v2/everything" (options oc) in
  getDataFromWeb url (API_KEY st) (cb oc).

Definition v2_sources (this : NewsAPI) (st : module_state)
  (args : list value) : dispatch :=
  let oc := splitArgsIntoOptionsAndCallback args in
  let url := createUrlFromEndpointAndOptions "/v2/sources" (options oc) in
  getDataFromWeb url (API_KEY st) (cb oc).

Definition sources (this : NewsAPI) (st : module_state)
  (args : list value) : dispatch :=
  let oc := splitArgsIntoOptionsAndCallback args in
  let url := createUrlFromEndpointAndOptions "/v1/sources" (options oc) in
  getDataFromWeb url VNull (cb oc).

Definition articles (this : NewsAPI) (st : module_state)
  (args : list value) : dispatch :=
  let oc := splitArgsIntoOptionsAndCallback args in
  let url := createUrlFromEndpointAndOptions "/v1/articles" (options oc) in
  getDataFromWeb url (API_KEY st) (cb oc).

(** The five public methods, to quantify over them. *)
Inductive method : Type :=
| V2_topHeadlines
| V2_everything
| V2_sources
| Sources
| Articles.

Definition call (m : method) : NewsAPI -> module_state -> list value
  -> dispatch :=
  match m with
  | V2_topHeadlines => v2_topHeadlines
  | V2_everything => v2_everything
  | V2_sources => v2_sources
  | Sources => sources
  | Articles => articles
  end.

(** The state of the promise and of the callback once the transport has
    called back, and whether an exception escaped into the transport. *)
Definition complete (d : dispatch) (out : transport_outcome)
  : completion unit * world :=
  on_response d out initial_world.

Definition settled (d : dispatch) (out : transport_outcome) : world :=
  snd (complete d out).

End Dispatcher.

(** ** Observations *)

(** An outcome, as a caller receives it. *)
Inductive outcome : Type :=
| Success (data : json)
| Failure (e : thrown).

(** How a completion callback reads its positional arguments
    [(error, data)]. *)
Definition read_args (args : list arg) : option outcome :=
  match args with
  | [AErr e] => Some (Failure e)
  | [ANull; AData d] => Some (Success d)
  | _ => None
  end.

Definition by_promise (w : world) : list outcome :=
  match promise w with
  | Pending => []
  | Fulfilled d => [Success d]
  | Rejected e => [Failure e]
  end.

Definition by_callback (w : world) : list outcome :=
  flat_map (fun args => match read_args args with
                        | Some o => [o]
                        | None => []
                        end) (invocations w).

(** Every outcome a dispatch has delivered, through either channel. *)
Definition delivered (w : world) : list outcome :=
  by_promise w ++ by_callback w.

Definition is_NewsAPIError (e : thrown) : bool :=
  match e with NewsAPIError _ _ => true | Native _ => false end.

(** The outcome that the function given to the transport works out before
    it delivers anything: the transport's error, the exception of
    [JSON.parse], of the read of [status] or of the construction of the
    error, the error built from an error envelope, or the parsed data. *)
Definition verdict (JSON_parse : string -> native + json)
  (out : transport_outcome) : outcome :=
  match out with
  | Failed err => Failure (Native err)
  | Responded body =>
      match parse JSON_parse body with
      | Threw e => Failure e
      | Returned data =>
          match get data "status" with
          | Threw e => Failure e
          | Returned status =>
              if is_error status then
                match new_NewsAPIError data with
                | Threw e => Failure e
                | Returned e => Failure e
                end
              else Success data
          end
      end
  end.

(** The positional arguments that carry an outcome to a callback, and the
    settlement that carries it to a promise. *)
Definition args_of (o : outcome) : list arg :=
  match o with
  | Success d => [ANull; AData d]
  | Failure e => [AErr e]
  end.

Definition settlement_of (o : outcome) : promise_state :=
  match o with
  | Success d => Fulfilled d
  | Failure e => Rejected e
  end.

(** What the transport sees of a callback's invocation. *)
Definition result_of (r : option thrown) : completion unit :=
  match r with
  | None => Returned tt
  | Some e => Threw e
  end.

(** The methods that pass the stored credential to the dispatcher. *)
Definition authenticated (m : method) : bool :=
  match m with Sources => false | _ => true end.

(** The endpoint each method passes to the URL builder. *)
Definition path (m : method) : string :=
  match m with
  | V2_topHeadlines => "/v2/top-headlines"
  | V2_everything => "/v2/everything"
  | V2_sources => "/v2/sources"
  | Sources => "/v1/sources"
  | Articles => "/v1/articles"
  end.

(** A run of [new NewsAPI(k)] for each key in turn, whether it throws or
    not: the module state it leaves. *)
Fixpoint constructions (keys : list value) (st : module_state)
  : module_state :=
  match keys with
  | [] => st
  | k :: rest => constructions rest (snd (constructor k st))
  end.

(** The number of times a character occurs in a text. *)
Fixpoint occurrences (c : ascii) (s : string) : nat :=
  match s with
  | EmptyString => 0
  | String x rest => (if (x =? c)%char then 1 else 0) + occurrences c rest
  end.

(** ** The specification's vocabulary *)

Module Spec.

(** A mapping: an object with string keys. *)
Definition is_mapping (v : value) : bool :=
  match v with VObj _ => true | _ => false end.

Definition is_invocable (v : value) : bool :=
  match v with VFun _ => true | _ => false end.

(** The query string of the specification: the pairs of the mapping in its
    insertion order. *)
Definition query_in_insertion_order (props : list (string * value))
  : string :=
  String.concat "&" (flat_map Querystring.pairs props).

(** The pairs of one property, in the words of the amended claim: a value
    that is an array gives one percent-encoded [key=value] pair for each
    of its elements, in their order, and none when it is empty; any other
    value gives one pair. *)
Definition pairs_of (kv : string * value) : list string :=
  match snd kv with
  | VArr items =>
      map (fun x =>
             Querystring.escape (fst kv) ++ "="
             ++ Querystring.escape (Querystring.stringifyPrimitive x))
          items
  | v =>
      [Querystring.escape (fst kv) ++ "="
       ++ Querystring.escape (Querystring.stringifyPrimitive v)]
  end.

(** Two keys that are array indices, the first not above the second. *)
Definition index_le (k1 k2 : string) : Prop :=
  exists i j,
    array_index k1 = Some i /\ array_index k2 = Some j /\ (i <= j)%N.

End Spec.

(** ** Sample inputs *)

Module Samples.

Definition quote : string := String (ascii_of_nat 34) "".

Definition quoted (s : string) : string := quote ++ s ++ quote.

(** The body of an envelope whose status is ok and that has no other
    field. *)
Definition body_ok : string :=
  "{" ++ quoted "status" ++ ":" ++ quoted "ok" ++ "}".

(** The body of an error envelope: status error, code apiKeyInvalid,
    message bad key. *)
Definition body_error : string :=
  "{" ++ quoted "status" ++ ":" ++ quoted "error" ++ ","
      ++ quoted "code" ++ ":" ++ quoted "apiKeyInvalid" ++ ","
      ++ quoted "message" ++ ":" ++ quoted "bad key" ++ "}".

(** The body of an error envelope whose code is not a string but an
    object with the single field toString, set to 1. *)
Definition body_odd_code : string :=
  "{" ++ quoted "status" ++ ":" ++ quoted "error" ++ ","
      ++ quoted "code" ++ ":{" ++ quoted "toString" ++ ":1},"
      ++ quoted "message" ++ ":" ++ quoted "bad key" ++ "}".

(** A body that is not JSON. *)
Definition body_html : string := "<html>".

Definition data_ok : json := JObj [("status", JStr "ok")].

Definition data_error : json :=
  JObj [("status", JStr "error"); ("code", JStr "apiKeyInvalid");
        ("message", JStr "bad key")].

Definition data_odd_code : json :=
  JObj [("status", JStr "error"); ("code", JObj [("toString", JNum "1")]);
        ("message", JStr "bad key")].

Definition syntax_error : native :=
  mkNative "SyntaxError" "Unexpected token < in JSON at position 0".

(** A parser that agrees with [JSON.parse] on the four bodies above, which
    are all the examples use. *)
Definition sample_parse (body : string) : native + json :=
  if body =? body_ok then inr data_ok
  else if body =? body_error then inr data_error
  else if body =? body_odd_code then inr data_odd_code
  else inl syntax_error.

(** A callback that always returns. *)
Definition quiet : callback := fun _ _ => None.

Definition boom : thrown := Native (mkNative "Error" "boom").

(** A callback that throws the first time it is invoked and returns
    afterwards. *)
Definition throws_once : callback :=
  fun n _ => match n with O => Some boom | S _ => None end.

Definition connection_refused : native :=
  mkNative "Error" "connect ECONNREFUSED".

Definition key1 : value := VStr "first-key".
Definition key2 : value := VStr "second-key".

End Samples.

Module MoreSamples.

(** A parser that agrees with [JSON.parse] on the body [null]. *)
Definition parse_null (body : string) : native + json :=
  if body =? "null" then inr JNull else inl Samples.syntax_error.

(** The error envelope with a status and nothing else, and its body. *)
Definition data_bare_error : json := JObj [("status", JStr "error")].

Definition body_bare_error : string :=
  "{" ++ Samples.quoted "status" ++ ":" ++ Samples.quoted "error" ++ "}".

Definition parse_bare (body : string) : native + json :=
  if body =? body_bare_error then inr data_bare_error
  else inl Samples.syntax_error.

(** A callback that throws whenever it is invoked. *)
Definition always_throws : callback := fun _ _ => Some Samples.boom.

End MoreSamples.

(** * Properties *)

(** ** The runtime model *)

Lemma typeof_function (v : value) :
  (typeof v =? "function") = true <-> exists f, v = VFun f.
Proof.
  split.
  - destruct v; simpl; try discriminate. intros _. now exists f.
  - intros [f ->]. reflexivity.
Qed.

Lemma typeof_object (v : value) :
  typeof v = "object" <->
  Spec.is_mapping v = true \/ (exists items, v = VArr items) \/ v = VNull.
Proof.
  split.
  - destruct v; simpl; try discriminate; intros _; eauto.
  - intros [H | [[items ->] | ->]]; try reflexivity.
    destruct v; simpl in H; try discriminate. reflexivity.
Qed.

(** ** Argument normaliser *)

(** C5, as the specification states it, fails for the call shape [(null)]:
    [null] is neither a mapping nor invocable, yet it comes back as the
    options instead of [undefined]. *)
Lemma split_args_null_counterexample :
  Spec.is_mapping VNull = false /\
  Spec.is_invocable VNull = false /\
  splitArgsIntoOptionsAndCallback [VNull]
    = mkOptionsAndCallback VNull VUndefined /\
  splitArgsIntoOptionsAndCallback [VNull]
    <> mkOptionsAndCallback VUndefined VUndefined.
Proof.
  repeat split; simpl; discriminate.
Qed.

(** C5 (amended): for every argument list of length 0 to 2 the argument
    normaliser returns [(options, callback)] when two arguments are given;
    [(argument, undefined)] when the single argument has type [object],
    which is the case for a mapping and also for an array and for [null];
    [(undefined, argument)] when the single argument is invocable;
    [(undefined, undefined)] when no argument is given or when the type of
    the single argument is neither [object] nor [function]. *)
Theorem split_args_call_shapes :
  (forall o c,
     splitArgsIntoOptionsAndCallback [o; c] = mkOptionsAndCallback o c) /\
  (forall a, typeof a = "object" ->
     splitArgsIntoOptionsAndCallback [a] = mkOptionsAndCallback a VUndefined) /\
  (forall a, Spec.is_mapping a = true ->
     splitArgsIntoOptionsAndCallback [a] = mkOptionsAndCallback a VUndefined) /\
  (forall a, Spec.is_invocable a = true ->
     splitArgsIntoOptionsAndCallback [a] = mkOptionsAndCallback VUndefined a) /\
  (forall a, typeof a <> "object" -> typeof a <> "function" ->
     splitArgsIntoOptionsAndCallback [a]
       = mkOptionsAndCallback VUndefined VUndefined) /\
  splitArgsIntoOptionsAndCallback []
    = mkOptionsAndCallback VUndefined VUndefined.
Proof.
  repeat split.
  - intros a H. destruct a; simpl in H; try discriminate; reflexivity.
  - intros a H. destruct a; simpl in H; try discriminate. reflexivity.
  - intros a H. destruct a; simpl in H; try discriminate. reflexivity.
  - intros a Ho Hf. destruct a; simpl in *; try reflexivity; congruence.
Qed.

Lemma split_args_call_shapes_witness :
  splitArgsIntoOptionsAndCallback [VObj [("q", VStr "tesla")]]
    = mkOptionsAndCallback (VObj [("q", VStr "tesla")]) VUndefined /\
  splitArgsIntoOptionsAndCallback [VFun Samples.quiet]
    = mkOptionsAndCallback VUndefined (VFun Samples.quiet) /\
  splitArgsIntoOptionsAndCallback [VStr "tesla"]
    = mkOptionsAndCallback VUndefined VUndefined.
Proof.
  destruct split_args_call_shapes as (_ & Hobj & _ & Hfun & Hother & _).
  split; [| split].
  - apply Hobj. reflexivity.
  - apply Hfun. reflexivity.
  - apply Hother; simpl; discriminate.
Defined.

(** ** URL builder *)

Lemma append_nonempty (a b : string) : a <> "" -> a ++ b <> "".
Proof.
  destruct a; [congruence | discriminate].
Qed.

Lemma append_nonempty_r (a b : string) : b <> "" -> a ++ b <> "".
Proof.
  destruct a; simpl; [trivial | discriminate].
Qed.

Lemma concat_nonempty (sep : string) (l : list string) :
  l <> [] -> Forall (fun x => x <> "") l -> String.concat sep l <> "".
Proof.
  destruct l as [| x rest]; [congruence |].
  intros _ H. inversion H as [| ? ? Hx _]; subst.
  destruct rest; simpl; [exact Hx | now apply append_nonempty].
Qed.

Lemma pairs_nonempty (kv : string * value) :
  Forall (fun p => p <> "") (Querystring.pairs kv).
Proof.
  assert (Hks : forall k, Querystring.escape k ++ "=" <> "")
    by (intros k; apply append_nonempty_r; discriminate).
  destruct kv as [k v]. unfold Querystring.pairs. simpl fst; simpl snd.
  destruct v; try (constructor; [apply append_nonempty, Hks | constructor]).
  apply Forall_forall. intros p Hp. apply in_map_iff in Hp.
  destruct Hp as (x & <- & _). apply append_nonempty, Hks.
Qed.

Lemma flat_map_pairs_nonempty (es : list (string * value)) :
  Forall (fun p => p <> "") (flat_map Querystring.pairs es).
Proof.
  induction es as [| kv es IH]; simpl; [constructor |].
  apply Forall_app. split; [apply pairs_nonempty | exact IH].
Qed.

(** The query is empty exactly when no property contributes a pair. *)
Lemma stringify_object (props : list (string * value)) :
  Querystring.stringify (VObj props)
    = String.concat "&" (flat_map Querystring.pairs (own_entries props))
  /\ (Querystring.stringify (VObj props) = ""
      <-> flat_map Querystring.pairs (own_entries props) = []).
Proof.
  split; [reflexivity |]. unfold Querystring.stringify. simpl.
  split.
  - intros H. destruct (flat_map Querystring.pairs (own_entries props)) eqn:E;
      [reflexivity |].
    exfalso. revert H. apply concat_nonempty; [discriminate |].
    rewrite <- E. apply flat_map_pairs_nonempty.
  - intros ->. reflexivity.
Qed.

Lemma index_entries_none {A : Type} (props : list (string * A)) :
  forallb (fun kv => negb (is_array_index (fst kv))) props = true ->
  index_entries props = [].
Proof.
  induction props as [| [k v] rest IH]; simpl; [reflexivity |].
  unfold is_array_index at 1. destruct (array_index k); simpl;
    [discriminate | exact IH].
Qed.

(** Without array indices among the keys, the keys are listed in the order
    they were created. *)
Lemma own_entries_insertion_order {A : Type} (props : list (string * A)) :
  forallb (fun kv => negb (is_array_index (fst kv))) props = true ->
  own_entries props = props.
Proof.
  intros H. unfold own_entries. rewrite (index_entries_none props H). simpl.
  induction props as [| kv rest IH]; simpl in *; [reflexivity |].
  apply andb_prop in H. destruct H as [Hk Hrest]. rewrite Hk.
  f_equal. now apply IH.
Qed.

Lemma string_app_assoc (a b c : string) : (a ++ b) ++ c = a ++ b ++ c.
Proof.
  induction a as [| x a IH]; simpl; [reflexivity | now rewrite IH].
Qed.

(** One pair per property when no value is an array. *)
Lemma flat_map_pairs_primitive (es : list (string * value)) :
  forallb (fun kv => negb (is_array (snd kv))) es = true ->
  flat_map Querystring.pairs es
    = map (fun kv => Querystring.escape (fst kv) ++ "="
                     ++ Querystring.escape
                          (Querystring.stringifyPrimitive (snd kv))) es.
Proof.
  induction es as [| [k v] es IH]; simpl; [reflexivity |].
  intros H. apply andb_prop in H. destruct H as [Hv Hes].
  rewrite (IH Hes). unfold Querystring.pairs. simpl fst; simpl snd.
  destruct v; simpl in Hv; try discriminate; simpl;
    now rewrite string_app_assoc.
Qed.

Lemma url_of_object (endpoint : string) (props : list (string * value)) :
  createUrlFromEndpointAndOptions endpoint (VObj props)
    = match flat_map Querystring.pairs (own_entries props) with
      | [] => host ++ endpoint
      | ps => (host ++ endpoint) ++ "?" ++ String.concat "&" ps
      end.
Proof.
  unfold createUrlFromEndpointAndOptions.
  destruct (stringify_object props) as [Hq Hempty]. rewrite Hq in *.
  destruct (flat_map Querystring.pairs (own_entries props)) as [| p ps] eqn:E.
  - reflexivity.
  - destruct (String.eqb_spec (String.concat "&" (p :: ps)) "") as [H0 | _];
      [| reflexivity].
    apply Hempty in H0. discriminate.
Qed.

(** C6, as the specification states it, fails when a key of the mapping is
    an array index: the options [{b: 'x', 1: 'y'}], created in this order,
    are serialised with the key [1] first. *)
Lemma url_builder_order_counterexample :
  createUrlFromEndpointAndOptions "/v2/everything"
    (VObj [("b", VStr "x"); ("1", VStr "y")])
    = "https://newsapi.org/v2/everything?1=y&b=x" /\
  (host ++ "/v2/everything") ++ "?"
    ++ Spec.query_in_insertion_order [("b", VStr "x"); ("1", VStr "y")]
    = "https://newsapi.org/v2/everything?b=x&1=y" /\
  createUrlFromEndpointAndOptions "/v2/everything"
    (VObj [("b", VStr "x"); ("1", VStr "y")])
    <> (host ++ "/v2/everything") ++ "?"
       ++ Spec.query_in_insertion_order [("b", VStr "x"); ("1", VStr "y")].
Proof.
  repeat split. vm_compute. discriminate.
Qed.

(** A mapping that is not empty can still give no query: an empty array
    contributes no pair, and then no [?] is appended. *)
Lemma url_builder_empty_array_example :
  createUrlFromEndpointAndOptions "/v2/everything"
    (VObj [("sources", VArr [])])
    = "https://newsapi.org/v2/everything".
Proof. reflexivity. Qed.

Lemma insert_index_length {A : Type} (n : N) (e : A) (l : list (N * A)) :
  List.length (insert_index n e l) = S (List.length l).
Proof.
  induction l as [| [m x] rest IH]; simpl; [reflexivity |].
  destruct (n <? m)%N; simpl; [reflexivity | now rewrite IH].
Qed.

Lemma insert_index_In {A : Type} (n : N) (e x : A) (l : list (N * A)) :
  In x (map snd (insert_index n e l)) -> x = e \/ In x (map snd l).
Proof.
  induction l as [| [m y] rest IH]; simpl.
  - intros [<- | []]. now left.
  - destruct (n <? m)%N; simpl.
    + intros [<- | H]; [now left | now right].
    + intros [<- | H]; [right; now left |].
      destruct (IH H) as [-> | H']; [now left | right; now right].
Qed.

(** [Object.keys] lists every own property once: the listing has the
    length of the property table and holds nothing else. *)
Lemma own_entries_length {A : Type} (props : list (string * A)) :
  List.length (own_entries props) = List.length props.
Proof.
  unfold own_entries. rewrite length_app, length_map.
  induction props as [| [k v] rest IH]; simpl; [reflexivity |].
  unfold is_array_index at 1. destruct (array_index k); simpl.
  - rewrite insert_index_length. simpl. now rewrite IH.
  - rewrite Nat.add_succ_r. now rewrite IH.
Qed.

Lemma own_entries_In {A : Type} (props : list (string * A))
  (kv : string * A) :
  In kv (own_entries props) -> In kv props.
Proof.
  unfold own_entries. intros H. apply in_app_or in H.
  destruct H as [H | H]; [| now apply filter_In in H].
  induction props as [| [k v] rest IH]; simpl in *; [contradiction |].
  destruct (array_index k); [| right; now apply IH].
  apply insert_index_In in H. destruct H as [-> | H];
    [now left | right; now apply IH].
Qed.

Lemma insert_index_permutation {A : Type} (n : N) (e : A)
  (l : list (N * A)) :
  Permutation (map snd (insert_index n e l)) (e :: map snd l).
Proof.
  induction l as [| [m x] rest IH]; simpl; [reflexivity |].
  destruct (n <? m)%N; simpl; [reflexivity |].
  rewrite IH. apply perm_swap.
Qed.

Lemma insert_index_Forall {A : Type} (P : N * A -> Prop) (n : N) (e : A)
  (l : list (N * A)) :
  P (n, e) -> Forall P l -> Forall P (insert_index n e l).
Proof.
  intros Hn Hl. induction Hl as [| [m x] rest Hx Hrest IH]; simpl.
  - now constructor.
  - destruct (n <? m)%N; repeat constructor; assumption.
Qed.

(** The array indices are kept in ascending order. *)
Lemma insert_index_sorted {A : Type} (n : N) (e : A) (l : list (N * A)) :
  StronglySorted (fun a b => (fst a <= fst b)%N) l ->
  StronglySorted (fun a b => (fst a <= fst b)%N) (insert_index n e l).
Proof.
  intros Hl. induction Hl as [| [m x] rest Hrest IH Hx]; simpl.
  - repeat constructor.
  - destruct (N.ltb_spec n m) as [Hlt | Hge].
    + constructor; [now constructor |].
      constructor; [simpl; now apply N.lt_le_incl |].
      eapply Forall_impl; [| exact Hx]. intros [j y] Hj. simpl in *.
      eapply N.le_trans; [apply N.lt_le_incl; exact Hlt | exact Hj].
    + constructor; [exact IH |].
      apply insert_index_Forall; [exact Hge | exact Hx].
Qed.

Lemma index_entries_sorted {A : Type} (props : list (string * A)) :
  StronglySorted (fun a b => (fst a <= fst b)%N) (index_entries props).
Proof.
  induction props as [| [k v] rest IH]; simpl; [constructor |].
  destruct (array_index k); [now apply insert_index_sorted | exact IH].
Qed.

Lemma index_entries_sound {A : Type} (props : list (string * A)) :
  Forall (fun e => array_index (fst (snd e)) = Some (fst e))
    (index_entries props).
Proof.
  induction props as [| [k v] rest IH]; simpl; [constructor |].
  destruct (array_index k) as [n |] eqn:Hk; [| exact IH].
  now apply insert_index_Forall.
Qed.

Lemma index_entries_permutation {A : Type} (props : list (string * A)) :
  Permutation (map snd (index_entries props))
    (filter (fun kv => is_array_index (fst kv)) props).
Proof.
  induction props as [| [k v] rest IH]; simpl; [reflexivity |].
  unfold is_array_index at 1. destruct (array_index k); simpl.
  - rewrite insert_index_permutation. now apply perm_skip.
  - exact IH.
Qed.

(** The order of [Object.keys], said without the sorting procedure: the
    keys that are array indices, in ascending order, then the other keys
    as they were created. *)
Lemma own_entries_order {A : Type} (props : list (string * A)) :
  exists idx,
    own_entries props
      = (idx ++ filter (fun kv => negb (is_array_index (fst kv))) props)%list
    /\
    Permutation idx (filter (fun kv => is_array_index (fst kv)) props) /\
    StronglySorted (fun a b => Spec.index_le (fst a) (fst b)) idx.
Proof.
  exists (map snd (index_entries props)).
  split; [reflexivity |]. split; [apply index_entries_permutation |].
  pose proof (index_entries_sorted props) as Hsorted.
  pose proof (index_entries_sound props) as Hsound.
  induction Hsorted as [| [n kv] rest Hrest IH Hn]; simpl; [constructor |].
  inversion Hsound as [| ? ? Hkv Hsound']; subst. simpl in Hkv.
  constructor; [now apply IH |].
  apply Forall_forall. intros kv' Hin. apply in_map_iff in Hin.
  destruct Hin as ([j kv''] & <- & Hin). simpl.
  exists n, j. split; [exact Hkv |]. split.
  - apply (proj1 (Forall_forall _ _) Hsound' _ Hin).
  - apply (proj1 (Forall_forall _ _) Hn _ Hin).
Qed.

(** Which keys are array indices: canonical numerals below [2^32 - 1]
    only, ordered by their value and not as texts. *)
Lemma own_entries_example :
  own_entries
    [("b", 1); ("01", 2); ("10", 3); ("4294967295", 4); ("-1", 5);
     ("9", 6); ("4294967294", 7); ("0", 8); ("1.5", 9); ("", 10)]
    = [("0", 8); ("9", 6); ("10", 3); ("4294967294", 7);
       ("b", 1); ("01", 2); ("4294967295", 4); ("-1", 5); ("1.5", 9);
       ("", 10)].
Proof. reflexivity. Qed.

Lemma pairs_as_specified (kv : string * value) :
  Querystring.pairs kv = Spec.pairs_of kv.
Proof.
  destruct kv as [k v]. unfold Querystring.pairs, Spec.pairs_of.
  simpl fst; simpl snd.
  destruct v; try (now rewrite string_app_assoc).
  apply map_ext. intros x. apply string_app_assoc.
Qed.

(** C6 (amended): for every endpoint path and every options mapping whose
    keys and values are well-formed Unicode texts, the URL builder returns
    [<host><path>] with no [?] suffix when the options are undefined or
    the mapping yields no pair, because it is empty or holds nothing but
    empty arrays, and otherwise [<host><path>?<query>].  The query is the
    percent-encoded [key=value] pairs joined by [&]: a value that is an
    array gives one pair for each of its elements, in their order, and
    none when it is empty, any other value gives one pair; the properties
    come in the order in which [Object.keys] lists the keys, the array
    indices first, in ascending numeric order, then the other keys in
    insertion order.  This is insertion order when no key is an array
    index; in particular options [{q: 'tesla', language: 'en'}] and
    endpoint [/v2/everything] give
    [<host>/v2/everything?q=tesla&language=en]. *)
Theorem url_builder (endpoint : string) :
  createUrlFromEndpointAndOptions endpoint VUndefined = host ++ endpoint /\
  createUrlFromEndpointAndOptions endpoint (VObj []) = host ++ endpoint /\
  (forall props,
     props <> [] ->
     forallb (fun kv => negb (is_array (snd kv))) props = true ->
     createUrlFromEndpointAndOptions endpoint (VObj props)
       = (host ++ endpoint) ++ "?"
         ++ String.concat "&"
              (map (fun kv =>
                      Querystring.escape (fst kv) ++ "="
                      ++ Querystring.escape
                           (Querystring.stringifyPrimitive (snd kv)))
                   (own_entries props))) /\
  (forall props : list (string * value),
     forallb (fun kv => negb (is_array_index (fst kv))) props = true ->
     own_entries props = props) /\
  createUrlFromEndpointAndOptions "/v2/everything"
    (VObj [("q", VStr "tesla"); ("language", VStr "en")])
    = "https://newsapi.org/v2/everything?q=tesla&language=en" /\
  (forall props,
     createUrlFromEndpointAndOptions endpoint (VObj props)
       = match flat_map Spec.pairs_of (own_entries props) with
         | [] => host ++ endpoint
         | ps => (host ++ endpoint) ++ "?" ++ String.concat "&" ps
         end) /\
  (forall k items,
     createUrlFromEndpointAndOptions endpoint (VObj [(k, VArr items)])
       = match items with
         | [] => host ++ endpoint
         | _ :: _ =>
             (host ++ endpoint) ++ "?"
             ++ String.concat "&"
                  (map (fun x =>
                          Querystring.escape k ++ "="
                          ++ Querystring.escape
                               (Querystring.stringifyPrimitive x))
                       items)
         end) /\
  (forall props : list (string * value),
     exists idx,
       own_entries props
         = (idx
            ++ filter (fun kv => negb (is_array_index (fst kv))) props)%list
       /\
       Permutation idx (filter (fun kv => is_array_index (fst kv)) props) /\
       StronglySorted (fun a b => Spec.index_le (fst a) (fst b)) idx) /\
  createUrlFromEndpointAndOptions "/v2/everything"
    (VObj [("q", VStr "a b&c"); ("10", VBool true);
           ("2", VArr [VStr "x"; VStr "y"]); ("sources", VArr []);
           ("page", VNum "2")])
    = "https://newsapi.org/v2/everything?2=x&2=y&10=true&q=a%20b%26c&page=2".
Proof.
  assert (Hgeneral : forall props,
            createUrlFromEndpointAndOptions endpoint (VObj props)
              = match flat_map Spec.pairs_of (own_entries props) with
                | [] => host ++ endpoint
                | ps => (host ++ endpoint) ++ "?" ++ String.concat "&" ps
                end).
  { intros props. rewrite url_of_object.
    now rewrite (flat_map_ext _ _ pairs_as_specified). }
  split; [reflexivity |]. split; [reflexivity |].
  split.
  { intros props Hne Hvalues.
    assert (Hown : forallb (fun kv => negb (is_array (snd kv)))
                     (own_entries props) = true).
    { apply forallb_forall. intros kv Hkv.
      apply (proj1 (forallb_forall _ _) Hvalues). now apply own_entries_In. }
    rewrite url_of_object, (flat_map_pairs_primitive _ Hown).
    pose proof (own_entries_length props) as Hlen.
    destruct (own_entries props) as [| kv rest]; [| reflexivity].
    destruct props; [congruence | discriminate]. }
  split; [apply own_entries_insertion_order |].
  split; [reflexivity |].
  split; [exact Hgeneral |].
  split.
  { intros k items. rewrite Hgeneral.
    assert (Hown : own_entries [(k, VArr items)] = [(k, VArr items)]).
    { unfold own_entries, is_array_index. simpl.
      destruct (array_index k); reflexivity. }
    rewrite Hown. unfold Spec.pairs_of. simpl. rewrite app_nil_r.
    destruct items; reflexivity. }
  split; [apply own_entries_order | reflexivity].
Qed.

Lemma url_builder_witness :
  createUrlFromEndpointAndOptions "/v2/sources"
    (VObj [("country", VStr "us"); ("q", VStr "a b")])
    = "https://newsapi.org/v2/sources?country=us&q=a%20b".
Proof.
  destruct (url_builder "/v2/sources") as (_ & _ & H & _).
  rewrite H; [reflexivity | discriminate | reflexivity].
Defined.

(** ** Request dispatcher *)

Section DispatcherFacts.

Variable JSON_parse : string -> native + json.

Ltac run_monad :=
  unfold complete, bind, lift, throw, ret, try_catch, resolve, reject,
    invoke, initial_world; simpl.

(** Without a callback the promise is settled with the verdict, once, and
    nothing is invoked. *)
Lemma promise_mode (url : string) (apiKey cb : value)
  (out : transport_outcome) :
  (typeof cb =? "function") = false ->
  complete (getDataFromWeb JSON_parse url apiKey cb) out
    = (Returned tt, mkWorld (settlement_of (verdict JSON_parse out)) []).
Proof.
  intros Hcb. unfold complete, getDataFromWeb. simpl.
  rewrite Hcb. destruct out as [err | body]; [reflexivity |].
  unfold verdict. run_monad.
  destruct (parse JSON_parse body) as [data | e]; [| reflexivity].
  destruct (get data "status") as [status | e]; [| reflexivity].
  destruct (is_error status); [| reflexivity].
  destruct (new_NewsAPIError data); reflexivity.
Qed.

(** With a callback the promise is left alone and the verdict goes to the
    callback; when the callback throws on a success, the [catch] clause
    invokes it again with what it threw. *)
Lemma callback_mode (url : string) (apiKey : value) (f : callback)
  (out : transport_outcome) :
  complete (getDataFromWeb JSON_parse url apiKey (VFun f)) out
    = match verdict JSON_parse out with
      | Failure e =>
          (result_of (f 0 [AErr e]), mkWorld Pending [[AErr e]])
      | Success d =>
          match f 0 [ANull; AData d] with
          | None => (Returned tt, mkWorld Pending [[ANull; AData d]])
          | Some e =>
              (result_of (f 1 [AErr e]),
               mkWorld Pending [[ANull; AData d]; [AErr e]])
          end
      end.
Proof.
  unfold complete, getDataFromWeb, verdict. simpl.
  destruct out as [err | body].
  - run_monad. destruct (f 0 [AErr (Native err)]); reflexivity.
  - run_monad.
    destruct (parse JSON_parse body) as [data | e]; simpl;
      [| destruct (f 0 [AErr e]); reflexivity].
    destruct (get data "status") as [status | e]; simpl;
      [| destruct (f 0 [AErr e]); reflexivity].
    destruct (is_error status); simpl.
    + destruct (new_NewsAPIError data) as [e | e]; simpl;
        destruct (f 0 [AErr e]); reflexivity.
    + destruct (f 0 [ANull; AData data]) as [e |]; [| reflexivity].
      simpl. destruct (f 1 [AErr e]); reflexivity.
Qed.

Lemma settled_promise_mode (url : string) (apiKey cb : value)
  (out : transport_outcome) :
  (typeof cb =? "function") = false ->
  settled (getDataFromWeb JSON_parse url apiKey cb) out
    = mkWorld (settlement_of (verdict JSON_parse out)) [].
Proof.
  intros H. unfold settled. now rewrite promise_mode.
Qed.

Lemma settled_callback_mode (url : string) (apiKey : value) (f : callback)
  (out : transport_outcome) :
  settled (getDataFromWeb JSON_parse url apiKey (VFun f)) out
    = mkWorld Pending
        (args_of (verdict JSON_parse out)
         :: match verdict JSON_parse out with
            | Failure _ => []
            | Success d =>
                match f 0 [ANull; AData d] with
                | None => []
                | Some e => [[AErr e]]
                end
            end).
Proof.
  unfold settled. rewrite callback_mode.
  destruct (verdict JSON_parse out) as [d | e]; [| reflexivity].
  simpl. destruct (f 0 [ANull; AData d]); reflexivity.
Qed.

(** A failure is delivered once, whatever the mode and whatever the
    callback does. *)
Lemma failure_delivered_once (url : string) (apiKey cb : value)
  (out : transport_outcome) (e : thrown) :
  verdict JSON_parse out = Failure e ->
  delivered (settled (getDataFromWeb JSON_parse url apiKey cb) out)
    = [Failure e].
Proof.
  intros Hv. destruct (typeof cb =? "function") eqn:Hcb.
  - apply typeof_function in Hcb. destruct Hcb as [f ->].
    rewrite settled_callback_mode, Hv. reflexivity.
  - rewrite settled_promise_mode, Hv by exact Hcb. reflexivity.
Qed.

(** A success is delivered once when there is no callback or when the
    callback returns. *)
Lemma success_delivered_once (url : string) (apiKey cb : value)
  (out : transport_outcome) (d : json) :
  verdict JSON_parse out = Success d ->
  (forall f, cb = VFun f -> f 0 [ANull; AData d] = None) ->
  delivered (settled (getDataFromWeb JSON_parse url apiKey cb) out)
    = [Success d].
Proof.
  intros Hv Hquiet. destruct (typeof cb =? "function") eqn:Hcb.
  - apply typeof_function in Hcb. destruct Hcb as [f ->].
    rewrite settled_callback_mode, Hv, (Hquiet f eq_refl). reflexivity.
  - rewrite settled_promise_mode, Hv by exact Hcb. reflexivity.
Qed.

(** Every facade method ends in one call of the dispatcher, with the
    callback the normaliser found and with the stored credential or, for
    the legacy [sources], with [null]. *)
Lemma call_dispatches (m : method) (this : NewsAPI) (st : module_state)
  (args : list value) :
  exists url,
    call JSON_parse m this st args
      = getDataFromWeb JSON_parse url
          (if authenticated m then API_KEY st else VNull)
          (cb (splitArgsIntoOptionsAndCallback args)).
Proof.
  destruct m; simpl; eexists; reflexivity.
Qed.

(** C2: when the [cb] argument of the dispatcher is invocable, the mode is
    fixed to the callback on entry, before the request is issued; whatever
    the transport reports, the promise stays pending, the outcome goes to
    the callback first, and every invocation of the callback has the
    positional shape [(error)] or [(null, data)].  This covers the four
    outcomes: a transport error, a parse error, an error envelope and a
    success. *)
Theorem callback_mode_delivery (url : string) (apiKey cb : value)
  (out : transport_outcome) :
  (typeof cb =? "function") = true ->
  useCallback (getDataFromWeb JSON_parse url apiKey cb) = true /\
  promise (settled (getDataFromWeb JSON_parse url apiKey cb) out) = Pending /\
  by_promise (settled (getDataFromWeb JSON_parse url apiKey cb) out) = [] /\
  (exists rest,
     invocations (settled (getDataFromWeb JSON_parse url apiKey cb) out)
       = args_of (verdict JSON_parse out) :: rest) /\
  Forall (fun args => exists o, args = args_of o)
    (invocations (settled (getDataFromWeb JSON_parse url apiKey cb) out)) /\
  (forall err, out = Failed err ->
     verdict JSON_parse out = Failure (Native err)) /\
  (forall body e, out = Responded body -> JSON_parse body = inl e ->
     verdict JSON_parse out = Failure (Native e)) /\
  (forall body data, out = Responded body -> JSON_parse body = inr data ->
     get data "status" = Returned (Some (JStr "error")) ->
     exists e, verdict JSON_parse out = Failure e) /\
  (forall body data status, out = Responded body ->
     JSON_parse body = inr data ->
     get data "status" = Returned status -> is_error status = false ->
     verdict JSON_parse out = Success data).
Proof.
  intros Hcb. split; [exact Hcb |].
  apply typeof_function in Hcb. destruct Hcb as [f ->].
  rewrite settled_callback_mode. simpl.
  split; [reflexivity |]. split; [reflexivity |].
  split; [eexists; reflexivity |]. split.
  - constructor; [eexists; reflexivity |].
    destruct (verdict JSON_parse out) as [d | e]; [| constructor].
    destruct (f 0 [ANull; AData d]) as [e |]; [| constructor].
    constructor; [| constructor]. now exists (Failure e).
  - repeat split.
    + intros err ->. reflexivity.
    + intros body e -> He. unfold verdict, parse. now rewrite He.
    + intros body data -> Hd Hs. unfold verdict, parse. rewrite Hd, Hs.
      simpl. destruct (new_NewsAPIError data); eexists; reflexivity.
    + intros body data status -> Hd Hs He. unfold verdict, parse.
      now rewrite Hd, Hs, He.
Qed.

(** C1 (amended): for every facade method call in which a callback was
    supplied, the future the method returns never settles: whatever the
    transport reports and whatever is passed to the callback, the promise
    stays pending and the outcome reaches the caller through the callback
    only. *)
Theorem callback_leaves_future_pending (m : method) (this : NewsAPI)
  (st : module_state) (args : list value) (out : transport_outcome) :
  typeof (cb (splitArgsIntoOptionsAndCallback args)) = "function" ->
  promise (settled (call JSON_parse m this st args) out) = Pending /\
  by_promise (settled (call JSON_parse m this st args) out) = [] /\
  exists rest,
    invocations (settled (call JSON_parse m this st args) out)
      = args_of (verdict JSON_parse out) :: rest.
Proof.
  intros Hcb. destruct (call_dispatches m this st args) as [u ->].
  assert (H : (typeof (cb (splitArgsIntoOptionsAndCallback args))
               =? "function") = true) by (rewrite Hcb; reflexivity).
  apply typeof_function in H. destruct H as [f ->].
  rewrite settled_callback_mode. simpl.
  split; [reflexivity |]. split; [reflexivity |]. eexists; reflexivity.
Qed.

(** C4 (amended): for every response body that parses as JSON with a
    [status] field equal to the string [error], the call delivers one
    outcome, an error and never a success.  The envelope is then an object;
    when the string conversion of its [code] field succeeds, the error is a
    [NewsAPIError] whose name is [NewsAPIError: ] followed by that
    conversion and whose message is the [message] field as it is; when the
    conversion throws, what it throws is delivered instead. *)
Theorem error_envelope (url : string) (apiKey cb : value) (body : string)
  (data : json) :
  JSON_parse body = inr data ->
  get data "status" = Returned (Some (JStr "error")) ->
  exists props e,
    data = JObj props /\
    delivered
      (settled (getDataFromWeb JSON_parse url apiKey cb) (Responded body))
      = [Failure e] /\
    (forall s, template (own "code" props) = Returned s ->
       e = NewsAPIError ("NewsAPIError: " ++ s) (own "message" props)) /\
    (forall s, own "code" props = Some (JStr s) ->
       e = NewsAPIError ("NewsAPIError: " ++ s) (own "message" props)) /\
    (forall t, template (own "code" props) = Threw t ->
       e = t /\ is_NewsAPIError e = false).
Proof.
  intros Hd Hs.
  destruct data as [| | | | | props]; simpl in Hs; try discriminate.
  injection Hs as Hs.
  assert (Hv : verdict JSON_parse (Responded body)
               = match new_NewsAPIError (JObj props) with
                 | Threw e => Failure e
                 | Returned e => Failure e
                 end).
  { unfold verdict, parse. rewrite Hd. simpl. rewrite Hs. reflexivity. }
  unfold new_NewsAPIError in Hv. simpl in Hv.
  exists props.
  destruct (template (own "code" props)) as [s | t] eqn:Ht.
  - exists (NewsAPIError ("NewsAPIError: " ++ s) (own "message" props)).
    split; [reflexivity |].
    split; [now apply failure_delivered_once |].
    split; [intros s' Hs'; congruence |].
    split; [| discriminate].
    intros s' Hc. rewrite Hc in Ht. simpl in Ht. congruence.
  - exists t. split; [reflexivity |].
    split; [now apply failure_delivered_once |].
    split; [discriminate |].
    split.
    + intros s' Hc. rewrite Hc in Ht. discriminate.
    + intros t' Ht'. injection Ht' as <-. split; [reflexivity |].
      unfold template in Ht. destruct (own "code" props) as [j |];
        [| discriminate].
      destruct (to_string j); [discriminate |]. injection Ht as <-.
      reflexivity.
Qed.

(** C8: a transport failure and a body that is not valid JSON are
    delivered as the native error itself, the transport's error object or
    the exception of [JSON.parse]: once, not as a [NewsAPIError] and not
    wrapped in anything. *)
Theorem native_errors_not_wrapped (url : string) (apiKey cb : value) :
  (forall err,
     delivered
       (settled (getDataFromWeb JSON_parse url apiKey cb) (Failed err))
       = [Failure (Native err)]) /\
  (forall body e, JSON_parse body = inl e ->
     delivered
       (settled (getDataFromWeb JSON_parse url apiKey cb) (Responded body))
       = [Failure (Native e)]) /\
  (forall e : native, is_NewsAPIError (Native e) = false).
Proof.
  split; [| split].
  - intros err. now apply failure_delivered_once.
  - intros body e He. apply failure_delivered_once.
    unfold verdict, parse. now rewrite He.
  - reflexivity.
Qed.

(** ** The facade *)

(** C7: [topHeadlines] called with no argument, with a callback only, and
    more generally whenever the normaliser finds no options, requests
    [<host>/v2/top-headlines?language=en]: the query string holds
    [language=en]. *)
Theorem topHeadlines_default_language (this : NewsAPI) (st : module_state) :
  url (request (v2_topHeadlines JSON_parse this st []))
    = (host ++ "/v2/top-headlines") ++ "?" ++ "language=en" /\
  (forall f,
     url (request (v2_topHeadlines JSON_parse this st [VFun f]))
       = (host ++ "/v2/top-headlines") ++ "?" ++ "language=en") /\
  (forall args,
     options (splitArgsIntoOptionsAndCallback args) = VUndefined ->
     url (request (v2_topHeadlines JSON_parse this st args))
       = (host ++ "/v2/top-headlines") ++ "?" ++ "language=en").
Proof.
  split; [reflexivity |]. split; [reflexivity |].
  intros args H. unfold v2_topHeadlines. simpl. rewrite H. reflexivity.
Qed.

(** C9: the request carries the header [X-Api-Key] exactly when the
    credential handed to the dispatcher is truthy, and the header then
    holds that credential.  The legacy [sources] hands over [null] and so
    sends no header; the three [v2] methods and the legacy [articles] hand
    over the stored credential, which is truthy once a client has been
    constructed. *)
Theorem authentication_header :
  (forall url apiKey cb,
     headers (request (getDataFromWeb JSON_parse url apiKey cb))
       = if truthy apiKey then Some [("X-Api-Key", apiKey)] else None) /\
  (forall url apiKey cb,
     headers (request (getDataFromWeb JSON_parse url apiKey cb)) <> None
     <-> truthy apiKey = true) /\
  (forall this st args,
     (exists url,
        sources JSON_parse this st args
          = getDataFromWeb JSON_parse url VNull
              (cb (splitArgsIntoOptionsAndCallback args))) /\
     headers (request (sources JSON_parse this st args)) = None) /\
  (forall m this st args, m <> Sources ->
     (exists url,
        call JSON_parse m this st args
          = getDataFromWeb JSON_parse url (API_KEY st)
              (cb (splitArgsIntoOptionsAndCallback args))) /\
     headers (request (call JSON_parse m this st args))
       = if truthy (API_KEY st) then Some [("X-Api-Key", API_KEY st)]
         else None) /\
  (forall k st this st', constructor k st = (Returned this, st') ->
     API_KEY st' = k /\ truthy (API_KEY st') = true).
Proof.
  split; [reflexivity |]. split.
  { intros u k c. simpl. destruct (truthy k); split; congruence. }
  split.
  { intros this st args. split; [eexists |]; reflexivity. }
  split.
  { intros m this st args Hm.
    destruct m; try congruence; (split; [eexists |]; reflexivity). }
  intros k st this st' H. unfold constructor in H.
  destruct (truthy k) eqn:Hk; simpl in H; [| discriminate].
  injection H as _ <-. simpl. now split.
Qed.

(** C10: the credential lives in the module variable [API_KEY] and not in
    the instance.  When two clients are constructed one after the other
    with different truthy keys, the second construction overwrites the
    credential, and every authenticated request then issued through the
    first instance carries the second key. *)
Theorem credential_shared_between_clients (k1 k2 : value)
  (st0 : module_state) :
  truthy k1 = true -> truthy k2 = true -> k1 <> k2 ->
  exists c1 c2 st1 st2,
    constructor k1 st0 = (Returned c1, st1) /\
    constructor k2 st1 = (Returned c2, st2) /\
    API_KEY st1 = k1 /\
    API_KEY st2 = k2 /\
    forall m args, m <> Sources ->
      headers (request (call JSON_parse m c1 st2 args))
        = Some [("X-Api-Key", k2)] /\
      headers (request (call JSON_parse m c1 st2 args))
        <> Some [("X-Api-Key", k1)].
Proof.
  intros H1 H2 Hne.
  exists instance, instance, (mkModule k1), (mkModule k2).
  unfold constructor. rewrite H1, H2. simpl.
  repeat (split; [reflexivity |]).
  intros m args Hm.
  assert (H : headers (request (call JSON_parse m instance (mkModule k2) args))
              = Some [("X-Api-Key", k2)]).
  { destruct m; try congruence; simpl; rewrite H2; reflexivity. }
  split; [exact H |]. rewrite H. congruence.
Qed.

End DispatcherFacts.

(** ** The properties on sample inputs *)

Import Samples.

(** C1, as the specification states it, fails: [everything(cb)] with a
    callback that returns, answered by an ok envelope, passes
    [(null, data)] to the callback, and the future it returned is not
    resolved with that data: it is still pending. *)
Lemma callback_future_counterexample :
  typeof (cb (splitArgsIntoOptionsAndCallback [VFun quiet])) = "function" /\
  invocations
    (settled (v2_everything sample_parse instance (mkModule key1) [VFun quiet])
       (Responded body_ok))
    = [[ANull; AData data_ok]] /\
  promise
    (settled (v2_everything sample_parse instance (mkModule key1) [VFun quiet])
       (Responded body_ok))
    = Pending /\
  promise
    (settled (v2_everything sample_parse instance (mkModule key1) [VFun quiet])
       (Responded body_ok))
    <> Fulfilled data_ok.
Proof.
  repeat split. vm_compute. discriminate.
Qed.

Lemma callback_leaves_future_pending_witness :
  promise
    (settled (articles sample_parse instance (mkModule key1)
                [VObj [("source", VStr "bbc-news")]; VFun quiet])
       (Failed connection_refused))
    = Pending.
Proof.
  apply (callback_leaves_future_pending sample_parse Articles instance
           (mkModule key1) [VObj [("source", VStr "bbc-news")]; VFun quiet]
           (Failed connection_refused)).
  reflexivity.
Defined.

Lemma callback_mode_delivery_witness :
  promise
    (settled (getDataFromWeb sample_parse "https://newsapi.org/v2/sources"
                key1 (VFun quiet))
       (Responded body_error))
    = Pending /\
  exists rest,
    invocations
      (settled (getDataFromWeb sample_parse "https://newsapi.org/v2/sources"
                  key1 (VFun quiet))
         (Responded body_error))
      = [AErr (NewsAPIError "NewsAPIError: apiKeyInvalid"
                 (Some (JStr "bad key")))] :: rest.
Proof.
  destruct (callback_mode_delivery sample_parse
              "https://newsapi.org/v2/sources" key1 (VFun quiet)
              (Responded body_error) eq_refl)
    as (_ & Hpending & _ & Hfirst & _).
  split; [exact Hpending | exact Hfirst].
Defined.

(** C3 fails on the code.  A callback that throws when it is handed a
    success is invoked a second time, by the [catch] clause that surrounds
    its invocation, with what it threw: one call of the dispatcher delivers
    two outcomes, a success and then an error. *)
Theorem throwing_callback_invoked_twice :
  sample_parse body_ok = inr data_ok /\
  invocations
    (settled (getDataFromWeb sample_parse "https://newsapi.org/v2/everything"
                key1 (VFun throws_once))
       (Responded body_ok))
    = [[ANull; AData data_ok]; [AErr boom]] /\
  delivered
    (settled (getDataFromWeb sample_parse "https://newsapi.org/v2/everything"
                key1 (VFun throws_once))
       (Responded body_ok))
    = [Success data_ok; Failure boom].
Proof.
  repeat split.
Qed.

(** C4, as the specification states it, fails for an error envelope whose
    [code] cannot be converted to a string: building the name of the error
    throws a [TypeError], and that is what the caller gets, not a
    [NewsAPIError]. *)
Lemma error_envelope_counterexample :
  sample_parse body_odd_code = inr data_odd_code /\
  get data_odd_code "status" = Returned (Some (JStr "error")) /\
  delivered
    (settled (getDataFromWeb sample_parse "https://newsapi.org/v2/everything"
                key1 VUndefined)
       (Responded body_odd_code))
    = [Failure (Native (mkNative "TypeError"
                          "Cannot convert object to primitive value"))] /\
  is_NewsAPIError
    (Native (mkNative "TypeError" "Cannot convert object to primitive value"))
    = false.
Proof.
  repeat split.
Qed.

Lemma error_envelope_witness :
  delivered
    (settled (getDataFromWeb sample_parse "https://newsapi.org/v2/everything"
                key1 VUndefined)
       (Responded body_error))
    = [Failure (NewsAPIError "NewsAPIError: apiKeyInvalid"
                  (Some (JStr "bad key")))].
Proof.
  destruct (error_envelope sample_parse "https://newsapi.org/v2/everything"
              key1 VUndefined body_error data_error eq_refl eq_refl)
    as (props & e & Hprops & Hdelivered & _ & Hname & _).
  injection Hprops as <-.
  rewrite Hdelivered, (Hname "apiKeyInvalid" eq_refl). reflexivity.
Defined.

Lemma native_errors_not_wrapped_witness :
  delivered
    (settled (getDataFromWeb sample_parse "https://newsapi.org/v2/everything"
                key1 (VFun quiet))
       (Responded body_html))
    = [Failure (Native syntax_error)].
Proof.
  destruct (native_errors_not_wrapped sample_parse
              "https://newsapi.org/v2/everything" key1 (VFun quiet))
    as (_ & Hparse & _).
  apply Hparse. reflexivity.
Defined.

Lemma topHeadlines_default_language_witness :
  url (request (v2_topHeadlines sample_parse instance (mkModule key1)
                  [VStr "tesla"]))
    = "https://newsapi.org/v2/top-headlines?language=en".
Proof.
  destruct (topHeadlines_default_language sample_parse instance
              (mkModule key1)) as (_ & _ & H).
  apply (H [VStr "tesla"]). reflexivity.
Defined.

Lemma authentication_header_witness :
  headers (request (call sample_parse Articles instance (mkModule key1) []))
    = Some [("X-Api-Key", key1)] /\
  API_KEY (mkModule key1) = key1.
Proof.
  destruct (authentication_header sample_parse) as (_ & _ & _ & Hauth & Hnew).
  split.
  - destruct (Hauth Articles instance (mkModule key1) []) as [_ H];
      [discriminate | exact H].
  - destruct (Hnew key1 initial_module instance (mkModule key1) eq_refl)
      as [H _]. exact H.
Defined.

Lemma credential_shared_between_clients_witness :
  exists c1 c2 st1 st2,
    constructor key1 initial_module = (Returned c1, st1) /\
    constructor key2 st1 = (Returned c2, st2) /\
    API_KEY st1 = key1 /\
    API_KEY st2 = key2 /\
    forall m args, m <> Sources ->
      headers (request (call sample_parse m c1 st2 args))
        = Some [("X-Api-Key", key2)] /\
      headers (request (call sample_parse m c1 st2 args))
        <> Some [("X-Api-Key", key1)].
Proof.
  apply (credential_shared_between_clients sample_parse key1 key2
           initial_module); [reflexivity | reflexivity | discriminate].
Defined.

(** * Further properties of the module *)

(** ** Construction *)

(** X1: [new NewsAPI(k)] succeeds exactly when the key is truthy.  With a
    falsy key (absent, [null], the empty string, zero) it throws the error
    [No API key specified] and leaves the stored credential as it was;
    with a truthy key it stores that key. *)
Theorem constructor_requires_key (k : value) (st : module_state) :
  (truthy k = false ->
   constructor k st
     = (Threw (Native (mkNative "Error" "No API key specified")), st)) /\
  (truthy k = true ->
   exists this, constructor k st = (Returned this, mkModule k)) /\
  ((exists this st', constructor k st = (Returned this, st'))
   <-> truthy k = true).
Proof.
  unfold constructor. destruct (truthy k); simpl.
  - split; [discriminate |]. split; [intros _; now exists instance |].
    split; [reflexivity | intros _; now exists instance, (mkModule k)].
  - split; [reflexivity |]. split; [discriminate |].
    split; [intros (this & st' & H); discriminate | discriminate].
Qed.

Lemma constructor_requires_key_witness :
  constructor (VStr "") (mkModule Samples.key1)
    = (Threw (Native (mkNative "Error" "No API key specified")),
       mkModule Samples.key1) /\
  exists this,
    constructor Samples.key2 (mkModule Samples.key1)
      = (Returned this, mkModule Samples.key2).
Proof.
  destruct (constructor_requires_key (VStr "") (mkModule Samples.key1))
    as (Hfalsy & _).
  destruct (constructor_requires_key Samples.key2 (mkModule Samples.key1))
    as (_ & Htruthy & _).
  split; [apply Hfalsy | apply Htruthy]; reflexivity.
Defined.

Lemma last_cons {A : Type} (a d : A) (l : list A) :
  last (a :: l) d = last l a.
Proof.
  revert a d. induction l as [| b l IH]; intros a d; [reflexivity |].
  change (last (a :: b :: l) d) with (last (b :: l) d).
  now rewrite !IH.
Qed.

Lemma constructor_state (k : value) (st : module_state) :
  snd (constructor k st) = if truthy k then mkModule k else st.
Proof.
  unfold constructor. destruct (truthy k); reflexivity.
Qed.

(** X2: after any run of constructions, failed ones included, the stored
    credential is the last truthy key that was given, or the one stored
    before when there was none.  So a stored credential that is truthy
    stays truthy, whatever is constructed afterwards. *)
Theorem last_truthy_key_is_stored (keys : list value) (st : module_state) :
  API_KEY (constructions keys st) = last (filter truthy keys) (API_KEY st) /\
  (truthy (API_KEY st) = true ->
   truthy (API_KEY (constructions keys st)) = true).
Proof.
  revert st. induction keys as [| k keys IH]; intros st; simpl.
  - split; [reflexivity | trivial].
  - destruct (IH (snd (constructor k st))) as [Hlast Hinv].
    rewrite constructor_state in Hlast, Hinv |- *.
    destruct (truthy k) eqn:Hk.
    + split; [now rewrite last_cons | intros _; now apply Hinv].
    + split; [exact Hlast | exact Hinv].
Qed.

Lemma last_truthy_key_is_stored_witness :
  truthy
    (API_KEY
       (constructions [Samples.key2; VStr ""; VNull] (mkModule Samples.key1)))
    = true.
Proof.
  apply (last_truthy_key_is_stored [Samples.key2; VStr ""; VNull]
           (mkModule Samples.key1)).
  reflexivity.
Defined.

(** ** Argument normaliser *)

(** X3: the normaliser looks at the type of an argument only when there is
    at most one.  Then the options it returns are [undefined] or of type
    [object], the callback it returns is [undefined] or invocable, and one
    of the two is [undefined].  With two arguments or more it returns the
    first two as they are, whatever they are, and ignores the rest. *)
Theorem normaliser_checks_single_argument_only :
  (forall args, (List.length args <= 1)%nat ->
     (options (splitArgsIntoOptionsAndCallback args) = VUndefined \/
      typeof (options (splitArgsIntoOptionsAndCallback args)) = "object") /\
     (cb (splitArgsIntoOptionsAndCallback args) = VUndefined \/
      typeof (cb (splitArgsIntoOptionsAndCallback args)) = "function") /\
     (options (splitArgsIntoOptionsAndCallback args) = VUndefined \/
      cb (splitArgsIntoOptionsAndCallback args) = VUndefined)) /\
  (forall o c rest,
     splitArgsIntoOptionsAndCallback (o :: c :: rest)
       = mkOptionsAndCallback o c).
Proof.
  split; [| reflexivity].
  intros [| a [| b rest]] Hlen; simpl in Hlen.
  - simpl. auto.
  - destruct a; simpl; auto.
  - exfalso. apply (Nat.nle_succ_0 (List.length rest)).
    now apply le_S_n.
Qed.

Lemma normaliser_checks_single_argument_only_witness :
  cb (splitArgsIntoOptionsAndCallback [VNum "42"]) = VUndefined \/
  typeof (cb (splitArgsIntoOptionsAndCallback [VNum "42"])) = "function".
Proof.
  destruct normaliser_checks_single_argument_only as [H _].
  apply (H [VNum "42"]). apply le_n.
Defined.

(** ** URL builder *)

Lemma string_app_nil_r (a : string) : a ++ "" = a.
Proof.
  induction a as [| x a IH]; simpl; [reflexivity | now rewrite IH].
Qed.

(** The URL is the base, alone or followed by [?] and a query that is not
    empty. *)
Lemma url_shape (endpoint : string) (o : value) :
  exists q,
    createUrlFromEndpointAndOptions endpoint o = (host ++ endpoint) ++ q /\
    (q = "" \/ exists q', q' <> "" /\ q = "?" ++ q').
Proof.
  unfold createUrlFromEndpointAndOptions.
  destruct (String.eqb_spec (Querystring.stringify o) "") as [-> | Hq]; simpl.
  - exists "". split; [now rewrite string_app_nil_r | now left].
  - exists ("?" ++ Querystring.stringify o). split; [reflexivity |].
    right. now exists (Querystring.stringify o).
Qed.

(** X4: options that are not an object give no query.  A string, a
    number, a boolean or a function in the place of the options, as the
    two-argument call shape lets through, and [null] are dropped without
    an error and the URL is [<host><path>]. *)
Theorem options_that_are_no_object_give_no_query (endpoint : string)
  (o : value) :
  typeof o <> "object" \/ o = VNull ->
  Querystring.stringify o = "" /\
  createUrlFromEndpointAndOptions endpoint o = host ++ endpoint.
Proof.
  intros [H | ->]; [| split; reflexivity].
  destruct o; simpl in H; try congruence; split; reflexivity.
Qed.

Lemma options_that_are_no_object_give_no_query_witness :
  createUrlFromEndpointAndOptions "/v2/everything" (VStr "q=tesla")
    = "https://newsapi.org/v2/everything".
Proof.
  apply (options_that_are_no_object_give_no_query "/v2/everything"
           (VStr "q=tesla")).
  left. discriminate.
Defined.

(** [Object.keys] reorders the properties and does nothing else. *)
Lemma own_entries_permutation {A : Type} (props : list (string * A)) :
  Permutation (own_entries props) props.
Proof.
  unfold own_entries.
  induction props as [| [k v] rest IH]; simpl; [reflexivity |].
  unfold is_array_index at 1. destruct (array_index k); simpl.
  - rewrite insert_index_permutation. simpl. now apply perm_skip.
  - rewrite <- Permutation_middle. now apply perm_skip.
Qed.

(** X5: whatever the order of the keys, every property of the options is
    serialised, and once: for a mapping that is not empty and holds no
    array, the query is the [key=value] pairs of a rearrangement of the
    properties, joined by [&]. *)
Theorem every_property_is_serialised_once (endpoint : string)
  (props : list (string * value)) :
  props <> [] ->
  forallb (fun kv => negb (is_array (snd kv))) props = true ->
  exists ordered,
    Permutation ordered props /\
    createUrlFromEndpointAndOptions endpoint (VObj props)
      = (host ++ endpoint) ++ "?"
        ++ String.concat "&"
             (map (fun kv =>
                     Querystring.escape (fst kv) ++ "="
                     ++ Querystring.escape
                          (Querystring.stringifyPrimitive (snd kv)))
                  ordered).
Proof.
  intros Hne Hvalues. exists (own_entries props).
  split; [apply own_entries_permutation |].
  assert (Hown : forallb (fun kv => negb (is_array (snd kv)))
                   (own_entries props) = true).
  { apply forallb_forall. intros kv Hkv.
    apply (proj1 (forallb_forall _ _) Hvalues). now apply own_entries_In. }
  rewrite url_of_object, (flat_map_pairs_primitive _ Hown).
  pose proof (own_entries_length props) as Hlen.
  destruct (own_entries props) as [| kv rest]; [| reflexivity].
  destruct props; [congruence | discriminate].
Qed.

Lemma every_property_is_serialised_once_witness :
  exists ordered,
    Permutation ordered [("q", VStr "tesla"); ("7", VBool true)] /\
    createUrlFromEndpointAndOptions "/v2/everything"
      (VObj [("q", VStr "tesla"); ("7", VBool true)])
      = (host ++ "/v2/everything") ++ "?"
        ++ String.concat "&"
             (map (fun kv =>
                     Querystring.escape (fst kv) ++ "="
                     ++ Querystring.escape
                          (Querystring.stringifyPrimitive (snd kv)))
                  ordered).
Proof.
  apply (every_property_is_serialised_once "/v2/everything"
           [("q", VStr "tesla"); ("7", VBool true)]);
    [discriminate | reflexivity].
Defined.

Lemma occurrences_app (c : ascii) (a b : string) :
  occurrences c (a ++ b) = occurrences c a + occurrences c b.
Proof.
  induction a as [| x a IH]; simpl; [reflexivity |].
  rewrite IH. apply Nat.add_assoc.
Qed.

Lemma hex_digit_unreserved (n : nat) :
  Querystring.unreserved (Querystring.hex_digit n) = true.
Proof.
  do 17 (destruct n as [| n]; [reflexivity |]). reflexivity.
Qed.

(** [escape] writes unreserved characters and [%] and nothing else. *)
Lemma escape_occurrences (c : ascii) (s : string) :
  Querystring.unreserved c = false -> c <> "%"%char ->
  occurrences c (Querystring.escape s) = 0.
Proof.
  intros Hc Hpercent.
  assert (Hne : forall x, Querystring.unreserved x = true ->
                          (x =? c)%char = false).
  { intros x Hx. apply Ascii.eqb_neq. intros ->. congruence. }
  induction s as [| x s IH]; cbn [Querystring.escape occurrences];
    [reflexivity |].
  rewrite occurrences_app, IH, Nat.add_0_r.
  destruct (Querystring.unreserved x) eqn:Hx.
  - cbn [occurrences]. now rewrite (Hne x Hx).
  - unfold Querystring.percent. cbn [occurrences].
    destruct (Ascii.eqb_spec "%"%char c) as [E | _]; [congruence |].
    rewrite !Hne by apply hex_digit_unreserved. reflexivity.
Qed.

Lemma occurrences_concat (c : ascii) (sep : string) (l : list string) :
  occurrences c (String.concat sep l)
    = list_sum (map (occurrences c) l)
      + occurrences c sep * (List.length l - 1).
Proof.
  induction l as [| x [| y rest] IH].
  - cbn [String.concat map list_sum List.length Nat.sub occurrences].
    now rewrite Nat.mul_0_r.
  - cbn [String.concat map list_sum List.length Nat.sub].
    now rewrite Nat.mul_0_r, !Nat.add_0_r.
  - change (String.concat sep (x :: y :: rest))
      with (x ++ sep ++ String.concat sep (y :: rest)).
    rewrite !occurrences_app, IH.
    change (List.length (x :: y :: rest) - 1) with (S (List.length rest)).
    change (List.length (y :: rest) - 1) with (List.length rest - 0).
    rewrite Nat.sub_0_r, Nat.mul_succ_r.
    change (list_sum (map (occurrences c) (x :: y :: rest)))
      with (occurrences c x + list_sum (map (occurrences c) (y :: rest))).
    rewrite <- !Nat.add_assoc. f_equal.
    rewrite (Nat.add_comm (occurrences c sep)), !Nat.add_assoc.
    reflexivity.
Qed.

Lemma list_sum_constant {A : Type} (f : A -> nat) (n : nat) (l : list A) :
  (forall x, f x = n) -> list_sum (map f l) = n * List.length l.
Proof.
  intros H. induction l as [| x l IH]; simpl.
  - now rewrite Nat.mul_0_r.
  - now rewrite H, IH, Nat.mul_succ_r, Nat.add_comm.
Qed.

Lemma occurrences_url (c : ascii) (endpoint : string) (o : value) :
  occurrences c host = 0 -> occurrences c "?" = 0 ->
  occurrences c (createUrlFromEndpointAndOptions endpoint o)
    = occurrences c endpoint + occurrences c (Querystring.stringify o).
Proof.
  intros Hhost Hmark. unfold createUrlFromEndpointAndOptions.
  destruct (String.eqb_spec (Querystring.stringify o) "") as [-> | _];
    cbv beta iota zeta; unfold negb.
  - rewrite occurrences_app, Hhost. simpl. now rewrite Nat.add_0_r.
  - rewrite !occurrences_app, Hhost, Hmark. reflexivity.
Qed.

Lemma occurrences_pair (k v : string) :
  occurrences "&" (Querystring.escape k ++ "=" ++ Querystring.escape v) = 0 /\
  occurrences "=" (Querystring.escape k ++ "=" ++ Querystring.escape v) = 1.
Proof.
  rewrite !occurrences_app.
  rewrite !(escape_occurrences "&") by (reflexivity || discriminate).
  rewrite !(escape_occurrences "=") by (reflexivity || discriminate).
  split; reflexivity.
Qed.

(** X6: a key or a value that is a well-formed Unicode text cannot add a
    parameter to the query.  For a mapping of such keys and values that
    holds no array, the URL has one [=] for each property and one [&]
    between two properties, besides those of the endpoint itself: the
    separators that the keys and the values hold are percent-encoded. *)
Theorem separators_cannot_be_injected (endpoint : string)
  (props : list (string * value)) :
  forallb (fun kv => negb (is_array (snd kv))) props = true ->
  occurrences "&" (createUrlFromEndpointAndOptions endpoint (VObj props))
    = occurrences "&" endpoint + (List.length props - 1) /\
  occurrences "=" (createUrlFromEndpointAndOptions endpoint (VObj props))
    = occurrences "=" endpoint + List.length props.
Proof.
  intros Hvalues.
  assert (Hown : forallb (fun kv => negb (is_array (snd kv)))
                   (own_entries props) = true).
  { apply forallb_forall. intros kv Hkv.
    apply (proj1 (forallb_forall _ _) Hvalues). now apply own_entries_In. }
  rewrite !occurrences_url by reflexivity.
  destruct (stringify_object props) as [-> _].
  rewrite (flat_map_pairs_primitive _ Hown), !occurrences_concat, !map_map,
    length_map, own_entries_length.
  rewrite (list_sum_constant _ 0) by (intros kv; apply occurrences_pair).
  rewrite (list_sum_constant _ 1) by (intros kv; apply occurrences_pair).
  rewrite own_entries_length.
  change (occurrences "&" "&") with 1. change (occurrences "=" "&") with 0.
  rewrite !Nat.mul_0_l, !Nat.mul_1_l, Nat.add_0_l, Nat.add_0_r.
  split; reflexivity.
Qed.

Lemma separators_cannot_be_injected_witness :
  occurrences "&"
    (createUrlFromEndpointAndOptions "/v2/everything"
       (VObj [("q", VStr "a&b=c"); ("page", VNum "2")]))
    = 1.
Proof.
  destruct (separators_cannot_be_injected "/v2/everything"
              [("q", VStr "a&b=c"); ("page", VNum "2")] eq_refl) as [H _].
  exact H.
Defined.

(** ** The facade *)

Section FacadeFacts.

Variable JSON_parse : string -> native + json.

(** X7: the default options of [topHeadlines] are not merged with the
    caller's.  As soon as the normaliser finds options they are used
    alone: an empty mapping and [null] give a URL without any query, and a
    mapping with one property gives just that property, without
    [language=en]. *)
Theorem topHeadlines_default_is_not_merged (this : NewsAPI)
  (st : module_state) :
  (forall args,
     options (splitArgsIntoOptionsAndCallback args) <> VUndefined ->
     url (request (v2_topHeadlines JSON_parse this st args))
       = createUrlFromEndpointAndOptions "/v2/top-headlines"
           (options (splitArgsIntoOptionsAndCallback args))) /\
  url (request (v2_topHeadlines JSON_parse this st [VObj []]))
    = host ++ "/v2/top-headlines" /\
  url (request (v2_topHeadlines JSON_parse this st [VNull]))
    = host ++ "/v2/top-headlines" /\
  (forall k v, is_array v = false ->
     url (request (v2_topHeadlines JSON_parse this st [VObj [(k, v)]]))
       = (host ++ "/v2/top-headlines") ++ "?"
         ++ Querystring.escape k ++ "="
         ++ Querystring.escape (Querystring.stringifyPrimitive v)).
Proof.
  split; [| split; [reflexivity | split; [reflexivity |]]].
  - intros args H. unfold v2_topHeadlines. simpl.
    destruct (options (splitArgsIntoOptionsAndCallback args));
      try reflexivity. congruence.
  - intros k v Hv.
    change (url (request (v2_topHeadlines JSON_parse this st [VObj [(k, v)]])))
      with (createUrlFromEndpointAndOptions "/v2/top-headlines"
              (VObj [(k, v)])).
    assert (Hown : own_entries [(k, v)] = [(k, v)]).
    { unfold own_entries, is_array_index. simpl.
      destruct (array_index k); reflexivity. }
    rewrite url_of_object, Hown.
    rewrite (flat_map_pairs_primitive [(k, v)])
      by (simpl; now rewrite Hv).
    reflexivity.
Qed.

(** X8: a request goes to the endpoint of the method that issues it.  For
    arguments that hold well-formed Unicode texts, its URL is [<host>] and
    the path of the method, alone or followed by [?] and a query that is
    not empty. *)
Theorem methods_request_their_endpoint (m : method) (this : NewsAPI)
  (st : module_state) (args : list value) :
  exists q,
    url (request (call JSON_parse m this st args)) = (host ++ path m) ++ q /\
    (q = "" \/ exists q', q' <> "" /\ q = "?" ++ q').
Proof.
  destruct m; simpl; apply url_shape.
Qed.

(** X9: a facade call runs in callback mode exactly when its second
    argument is invocable or its only argument is.  A callback in any
    other place, as in [(callback, options)], is never invoked: the call
    runs in promise mode. *)
Theorem facade_delivery_mode (m : method) (this : NewsAPI)
  (st : module_state) (args : list value) :
  useCallback (call JSON_parse m this st args) = true
  <-> (exists o f rest, args = o :: VFun f :: rest)
      \/ (exists f, args = [VFun f]).
Proof.
  destruct (call_dispatches JSON_parse m this st args) as [u ->].
  change (useCallback (getDataFromWeb JSON_parse u
            (if authenticated m then API_KEY st else VNull)
            (cb (splitArgsIntoOptionsAndCallback args))))
    with (typeof (cb (splitArgsIntoOptionsAndCallback args)) =? "function").
  rewrite typeof_function.
  destruct args as [| a [| b rest]].
  - simpl. split.
    + intros [f H]. discriminate.
    + intros [(o & f & r & H) | (f & H)]; discriminate.
  - split.
    + intros [f H]. right.
      destruct a; simpl in H; try discriminate. eauto.
    + intros [(o & f & r & H) | (f & H)]; [discriminate |].
      injection H as ->. now exists f.
  - change (cb (splitArgsIntoOptionsAndCallback (a :: b :: rest))) with b.
    split.
    + intros [f ->]. left. now exists a, f, rest.
    + intros [(o & f & r & H) | (f & H)]; [| discriminate].
      injection H as _ -> _. now exists f.
Qed.

End FacadeFacts.

Lemma facade_delivery_mode_witness :
  useCallback
    (call Samples.sample_parse V2_everything instance
       (mkModule Samples.key1)
       [VObj [("q", VStr "tesla")]; VFun Samples.quiet])
    = true.
Proof.
  apply (facade_delivery_mode Samples.sample_parse V2_everything instance
           (mkModule Samples.key1)
           [VObj [("q", VStr "tesla")]; VFun Samples.quiet]).
  left. now exists (VObj [("q", VStr "tesla")]), Samples.quiet, [].
Defined.

Lemma topHeadlines_default_is_not_merged_witness :
  url (request (v2_topHeadlines Samples.sample_parse instance
                  (mkModule Samples.key1) [VObj [("country", VStr "us")]]))
    = "https://newsapi.org/v2/top-headlines?country=us".
Proof.
  destruct (topHeadlines_default_is_not_merged Samples.sample_parse instance
              (mkModule Samples.key1)) as (_ & _ & _ & H).
  apply (H "country" (VStr "us")). reflexivity.
Defined.

(** ** Request dispatcher *)

Section MoreDispatcherFacts.

Variable JSON_parse : string -> native + json.

Lemma is_error_true (status : option json) :
  is_error status = true <-> status = Some (JStr "error").
Proof.
  split; [| intros ->; reflexivity].
  destruct status as [[| | | s | |] |]; simpl; try discriminate.
  intros H. apply String.eqb_eq in H. now subst.
Qed.

Lemma get_returns (d : json) (k : string) :
  d <> JNull -> exists v, get d k = Returned v.
Proof.
  destruct d; simpl; try congruence; eauto.
Qed.

(** The verdict is a success exactly for a body that parses to something
    other than [null] whose [status] is not the string [error]. *)
Lemma verdict_success (out : transport_outcome) (d : json) :
  verdict JSON_parse out = Success d
  <-> exists body,
        out = Responded body /\ JSON_parse body = inr d /\ d <> JNull /\
        get d "status" <> Returned (Some (JStr "error")).
Proof.
  split.
  - destruct out as [err | body]; [discriminate |].
    unfold verdict, parse.
    destruct (JSON_parse body) as [e | data] eqn:Hp; [discriminate |].
    destruct (get data "status") as [status | e] eqn:Hs; [| discriminate].
    destruct (is_error status) eqn:He;
      [destruct (new_NewsAPIError data); discriminate |].
    intros H. injection H as <-. exists body.
    repeat split; trivial.
    + intros ->. discriminate.
    + intros H. rewrite H in Hs. injection Hs as <-. discriminate.
  - intros (body & -> & Hp & Hnull & Hs). unfold verdict, parse.
    rewrite Hp. destruct (get_returns d "status" Hnull) as [status Hg].
    rewrite Hg in *. destruct (is_error status) eqn:He; [| reflexivity].
    apply is_error_true in He. congruence.
Qed.

Lemma template_throws_native (code : option json) (t : thrown) :
  template code = Threw t -> is_NewsAPIError t = false.
Proof.
  destruct code as [j |]; simpl; [| discriminate].
  destruct (to_string j); [discriminate |]. intros H. now injection H as <-.
Qed.

(** The verdict is a [NewsAPIError] only for an error envelope whose code
    could be converted. *)
Lemma verdict_NewsAPIError (out : transport_outcome) (n : string)
  (m : option json) :
  verdict JSON_parse out = Failure (NewsAPIError n m) ->
  exists body props s,
    out = Responded body /\ JSON_parse body = inr (JObj props) /\
    own "status" props = Some (JStr "error") /\
    template (own "code" props) = Returned s /\
    n = "NewsAPIError: " ++ s /\ m = own "message" props.
Proof.
  destruct out as [err | body]; [discriminate |].
  unfold verdict, parse.
  destruct (JSON_parse body) as [e | data] eqn:Hp; [discriminate |].
  destruct data as [| | | | | props]; simpl; try discriminate.
  destruct (is_error (own "status" props)) eqn:He; [| discriminate].
  apply is_error_true in He. unfold new_NewsAPIError. simpl.
  destruct (template (own "code" props)) as [s | t] eqn:Ht.
  - intros H. injection H as <- <-. now exists body, props, s.
  - intros H. injection H as ->.
    apply template_throws_native in Ht. discriminate.
Qed.

(** Whatever the mode, the first outcome delivered is the verdict. *)
Lemma verdict_delivered_first (url : string) (apiKey cb : value)
  (out : transport_outcome) :
  exists rest,
    delivered (settled (getDataFromWeb JSON_parse url apiKey cb) out)
      = verdict JSON_parse out :: rest.
Proof.
  destruct (typeof cb =? "function") eqn:Hcb.
  - apply typeof_function in Hcb. destruct Hcb as [f ->].
    rewrite settled_callback_mode.
    destruct (verdict JSON_parse out) as [d | e]; eexists; reflexivity.
  - rewrite settled_promise_mode by exact Hcb.
    destruct (verdict JSON_parse out) as [d | e]; eexists; reflexivity.
Qed.

(** X10: a facade call without an invocable callback settles the future
    it returns, once, and invokes nothing: the future is rejected with the
    transport's error or with the exception of [JSON.parse], and fulfilled
    with the parsed data when their [status] is not [error]; no exception
    escapes into the transport. *)
Theorem future_settles_without_callback (m : method) (this : NewsAPI)
  (st : module_state) (args : list value) (out : transport_outcome) :
  typeof (cb (splitArgsIntoOptionsAndCallback args)) <> "function" ->
  fst (complete (call JSON_parse m this st args) out) = Returned tt /\
  invocations (settled (call JSON_parse m this st args) out) = [] /\
  promise (settled (call JSON_parse m this st args) out) <> Pending /\
  (forall err, out = Failed err ->
     promise (settled (call JSON_parse m this st args) out)
       = Rejected (Native err)) /\
  (forall body e, out = Responded body -> JSON_parse body = inl e ->
     promise (settled (call JSON_parse m this st args) out)
       = Rejected (Native e)) /\
  (forall body data status, out = Responded body ->
     JSON_parse body = inr data ->
     get data "status" = Returned status -> is_error status = false ->
     promise (settled (call JSON_parse m this st args) out)
       = Fulfilled data).
Proof.
  intros Hcb. apply String.eqb_neq in Hcb.
  destruct (call_dispatches JSON_parse m this st args) as [u ->].
  unfold settled. rewrite promise_mode by exact Hcb. simpl.
  split; [reflexivity |]. split; [reflexivity |]. split.
  { destruct (verdict JSON_parse out); discriminate. }
  split; [intros err ->; reflexivity |]. split.
  - intros body e -> He. unfold verdict, parse. now rewrite He.
  - intros body data status -> Hd Hs He. unfold verdict, parse.
    now rewrite Hd, Hs, He.
Qed.

(** X11: without a callback the promise is fulfilled with [d] exactly when
    the transport answered with a body that parses to [d], [d] is not
    [null], and the [status] of [d] is not the string [error]; a status
    that is absent, that is not a string or that is spelled otherwise
    counts as a success. *)
Theorem fulfilled_exactly_when (url : string) (apiKey cb : value)
  (out : transport_outcome) (d : json) :
  (typeof cb =? "function") = false ->
  promise (settled (getDataFromWeb JSON_parse url apiKey cb) out)
    = Fulfilled d
  <-> exists body,
        out = Responded body /\ JSON_parse body = inr d /\ d <> JNull /\
        get d "status" <> Returned (Some (JStr "error")).
Proof.
  intros Hcb. rewrite settled_promise_mode by exact Hcb. simpl.
  rewrite <- verdict_success.
  destruct (verdict JSON_parse out) as [d' | e]; simpl;
    split; congruence.
Qed.

(** X12: a body that parses to [null] is valid JSON and still an error:
    reading its [status] throws a [TypeError], which is delivered, once, in
    either mode. *)
Theorem null_body_is_an_error (url : string) (apiKey cb : value)
  (body : string) :
  JSON_parse body = inr JNull ->
  exists text,
    delivered
      (settled (getDataFromWeb JSON_parse url apiKey cb) (Responded body))
      = [Failure (Native (mkNative "TypeError" text))].
Proof.
  intros Hp. eexists. apply failure_delivered_once.
  unfold verdict, parse. rewrite Hp. reflexivity.
Qed.

(** X13: a [NewsAPIError] comes from an error envelope and from nothing
    else.  When the first outcome delivered is a [NewsAPIError], the
    transport answered with a body that parses to an object whose [status]
    is [error]; the name is [NewsAPIError: ] followed by the string
    conversion of its [code] and the message is its [message]. *)
Theorem NewsAPIError_only_for_error_envelopes (url : string)
  (apiKey cb : value) (out : transport_outcome) (n : string)
  (m : option json) (rest : list outcome) :
  delivered (settled (getDataFromWeb JSON_parse url apiKey cb) out)
    = Failure (NewsAPIError n m) :: rest ->
  exists body props s,
    out = Responded body /\ JSON_parse body = inr (JObj props) /\
    own "status" props = Some (JStr "error") /\
    template (own "code" props) = Returned s /\
    n = "NewsAPIError: " ++ s /\ m = own "message" props.
Proof.
  intros H.
  destruct (verdict_delivered_first url apiKey cb out) as [rest' Hv].
  rewrite Hv in H. injection H as H _. now apply verdict_NewsAPIError.
Qed.

(** X14: an error envelope without a [code] gives a [NewsAPIError] named
    [NewsAPIError: undefined]; its message is the [message] of the
    envelope, [undefined] when that is absent too. *)
Theorem error_envelope_without_code (url : string) (apiKey cb : value)
  (body : string) (props : list (string * json)) :
  JSON_parse body = inr (JObj props) ->
  own "status" props = Some (JStr "error") ->
  own "code" props = None ->
  delivered
    (settled (getDataFromWeb JSON_parse url apiKey cb) (Responded body))
    = [Failure (NewsAPIError "NewsAPIError: undefined"
                  (own "message" props))].
Proof.
  intros Hp Hs Hc. apply failure_delivered_once.
  unfold verdict, parse, new_NewsAPIError. rewrite Hp. simpl.
  now rewrite Hs, Hc.
Qed.

(** X15: one call of the dispatcher invokes its callback once or twice,
    never more and never not at all.  It is invoked twice only when it was
    handed a success and threw: the second invocation then hands it what it
    threw.  A callback that returns when it is handed a success is invoked
    once. *)
Theorem callback_invoked_once_or_twice (url : string) (apiKey : value)
  (f : callback) (out : transport_outcome) :
  (List.length
     (invocations
        (settled (getDataFromWeb JSON_parse url apiKey (VFun f)) out)) = 1
   \/ List.length
        (invocations
           (settled (getDataFromWeb JSON_parse url apiKey (VFun f)) out)) = 2)
  /\
  (List.length
     (invocations
        (settled (getDataFromWeb JSON_parse url apiKey (VFun f)) out)) = 2
   <-> exists d e,
         verdict JSON_parse out = Success d /\
         f 0 [ANull; AData d] = Some e /\
         invocations
           (settled (getDataFromWeb JSON_parse url apiKey (VFun f)) out)
           = [[ANull; AData d]; [AErr e]])
  /\
  ((forall d, f 0 [ANull; AData d] = None) ->
   invocations
     (settled (getDataFromWeb JSON_parse url apiKey (VFun f)) out)
     = [args_of (verdict JSON_parse out)]).
Proof.
  rewrite settled_callback_mode. simpl.
  destruct (verdict JSON_parse out) as [d | e].
  - destruct (f 0 [ANull; AData d]) as [e |] eqn:Hf; simpl.
    + split; [now right |]. split.
      * split; [intros _; now exists d, e | reflexivity].
      * intros H. rewrite H in Hf. discriminate.
    + split; [now left |]. split; [| reflexivity].
      split; [discriminate |].
      intros (d' & e & Hd & He & _). injection Hd as <-. congruence.
  - simpl. split; [now left |]. split; [| reflexivity].
    split; [discriminate |]. intros (d & e' & Hd & _). discriminate.
Qed.

(** X16: a call uses one channel and only one, whatever is passed as the
    callback.  Either the mode is the callback, the promise stays pending
    and the callback is invoked; or the mode is the promise, the promise is
    settled and nothing is invoked. *)
Theorem one_channel_per_call (url : string) (apiKey cb : value)
  (out : transport_outcome) :
  (useCallback (getDataFromWeb JSON_parse url apiKey cb) = true /\
   promise (settled (getDataFromWeb JSON_parse url apiKey cb) out)
     = Pending /\
   invocations (settled (getDataFromWeb JSON_parse url apiKey cb) out)
     <> [])
  \/
  (useCallback (getDataFromWeb JSON_parse url apiKey cb) = false /\
   promise (settled (getDataFromWeb JSON_parse url apiKey cb) out)
     <> Pending /\
   invocations (settled (getDataFromWeb JSON_parse url apiKey cb) out)
     = []).
Proof.
  destruct (typeof cb =? "function") eqn:Hcb.
  - left. split; [exact Hcb |].
    apply typeof_function in Hcb. destruct Hcb as [f ->].
    rewrite settled_callback_mode. simpl. split; [reflexivity | discriminate].
  - right. split; [exact Hcb |].
    rewrite settled_promise_mode by exact Hcb. simpl.
    split; [| reflexivity].
    destruct (verdict JSON_parse out); discriminate.
Qed.

(** X17: the function the dispatcher hands to the transport throws only
    what the callback throws.  In promise mode it always returns.  In
    callback mode it returns or throws as the last invocation of the
    callback did: an exception of the callback that is not caught and
    handed back to it escapes into the transport. *)
Theorem exceptions_reaching_the_transport (url : string) (apiKey cb : value)
  (out : transport_outcome) :
  ((typeof cb =? "function") = false ->
   fst (complete (getDataFromWeb JSON_parse url apiKey cb) out)
     = Returned tt) /\
  (forall f, cb = VFun f ->
     fst (complete (getDataFromWeb JSON_parse url apiKey cb) out)
       = result_of
           (f (List.length
                 (invocations
                    (settled (getDataFromWeb JSON_parse url apiKey cb) out))
               - 1)
              (last
                 (invocations
                    (settled (getDataFromWeb JSON_parse url apiKey cb) out))
                 []))).
Proof.
  split.
  - intros Hcb. now rewrite promise_mode.
  - intros f ->. rewrite settled_callback_mode, callback_mode. simpl.
    destruct (verdict JSON_parse out) as [d | e]; [| reflexivity].
    destruct (f 0 [ANull; AData d]) as [e |] eqn:Hf; simpl;
      [reflexivity | now rewrite Hf].
Qed.

End MoreDispatcherFacts.

Lemma future_settles_without_callback_witness :
  promise
    (settled (call Samples.sample_parse V2_sources instance
                (mkModule Samples.key1) [VObj [("country", VStr "us")]])
       (Responded Samples.body_ok))
    = Fulfilled Samples.data_ok.
Proof.
  destruct (future_settles_without_callback Samples.sample_parse V2_sources
              instance (mkModule Samples.key1)
              [VObj [("country", VStr "us")]] (Responded Samples.body_ok))
    as (_ & _ & _ & _ & _ & H); [discriminate |].
  apply (H Samples.body_ok Samples.data_ok (Some (JStr "ok")));
    reflexivity.
Defined.

Lemma fulfilled_exactly_when_witness :
  promise
    (settled (getDataFromWeb Samples.sample_parse
                "https://newsapi.org/v2/everything" Samples.key1 VUndefined)
       (Responded Samples.body_ok))
    = Fulfilled Samples.data_ok.
Proof.
  apply (fulfilled_exactly_when Samples.sample_parse
           "https://newsapi.org/v2/everything" Samples.key1 VUndefined
           (Responded Samples.body_ok) Samples.data_ok eq_refl).
  exists Samples.body_ok.
  repeat split; discriminate.
Defined.

Lemma null_body_is_an_error_witness :
  exists text,
    delivered
      (settled (getDataFromWeb MoreSamples.parse_null
                  "https://newsapi.org/v2/everything" Samples.key1
                  VUndefined)
         (Responded "null"))
      = [Failure (Native (mkNative "TypeError" text))].
Proof.
  apply (null_body_is_an_error MoreSamples.parse_null
           "https://newsapi.org/v2/everything" Samples.key1 VUndefined
           "null").
  reflexivity.
Defined.

Lemma NewsAPIError_only_for_error_envelopes_witness :
  exists body props s,
    Responded Samples.body_error = Responded body /\
    Samples.sample_parse body = inr (JObj props) /\
    own "status" props = Some (JStr "error") /\
    template (own "code" props) = Returned s /\
    "NewsAPIError: apiKeyInvalid" = "NewsAPIError: " ++ s /\
    Some (JStr "bad key") = own "message" props.
Proof.
  apply (NewsAPIError_only_for_error_envelopes Samples.sample_parse
           "https://newsapi.org/v2/everything" Samples.key1 VUndefined
           (Responded Samples.body_error) "NewsAPIError: apiKeyInvalid"
           (Some (JStr "bad key")) []).
  reflexivity.
Defined.

Lemma error_envelope_without_code_witness :
  delivered
    (settled (getDataFromWeb MoreSamples.parse_bare
                "https://newsapi.org/v2/everything" Samples.key1
                (VFun MoreSamples.always_throws))
       (Responded MoreSamples.body_bare_error))
    = [Failure (NewsAPIError "NewsAPIError: undefined" None)].
Proof.
  apply (error_envelope_without_code MoreSamples.parse_bare
           "https://newsapi.org/v2/everything" Samples.key1
           (VFun MoreSamples.always_throws) MoreSamples.body_bare_error
           [("status", JStr "error")]);
    reflexivity.
Defined.

Lemma callback_invoked_once_or_twice_witness :
  invocations
    (settled (getDataFromWeb Samples.sample_parse
                "https://newsapi.org/v2/everything" Samples.key1
                (VFun Samples.quiet))
       (Responded Samples.body_ok))
    = [[ANull; AData Samples.data_ok]].
Proof.
  destruct (callback_invoked_once_or_twice Samples.sample_parse
              "https://newsapi.org/v2/everything" Samples.key1
              Samples.quiet (Responded Samples.body_ok)) as (_ & _ & H).
  apply H. reflexivity.
Defined.

Lemma exceptions_reaching_the_transport_witness :
  fst (complete
         (getDataFromWeb Samples.sample_parse
            "https://newsapi.org/v2/everything" Samples.key1
            (VStr "not a function"))
         (Failed Samples.connection_refused))
    = Returned tt.
Proof.
  destruct (exceptions_reaching_the_transport Samples.sample_parse
              "https://newsapi.org/v2/everything" Samples.key1
              (VStr "not a function") (Failed Samples.connection_refused))
    as [H _].
  apply H. reflexivity.
Defined.
